(** * Fantasy cricket decision support: the team builder of [streamlit_app.py]

    A shallow embedding of the data path of the Streamlit script: the loader
    ([load_data]), the sidebar filter ([filtered_df]), the role tabs, and the
    summary tab with its manual and automatic ("Optimize XI") branches.

    Modelling conventions.
    - A pandas frame is the list of its rows, in index order.  Numeric cells
      are rationals ([Q]); a missing numeric cell of the CSV is [None].
    - Text cells are ASCII strings; [str.upper] maps [a-z] to [A-Z].
    - [sort_values] returns the rows in the order of the key.  pandas does
      not fix the order of rows with equal keys; the model keeps them in
      their order of arrival, and the theorems on sorted frames state only
      that the result is a permutation in key order.
    - A Python exception is the [Raise] outcome of the [result] type. *)

From Stdlib Require Import List String Ascii Bool Arith ZArith QArith Lia.
From Stdlib Require Import Permutation Sorted.
Import ListNotations.

Local Open Scope string_scope.
Local Open Scope Q_scope.
Local Open Scope nat_scope.
Local Open Scope list_scope.

(** ** Exceptions *)

Inductive exn : Type :=
| KeyError (key : string)
| ValueError (given expected : nat).

Inductive result (A : Type) : Type :=
| Ok (a : A)
| Raise (e : exn).

Arguments Ok {A} a.
Arguments Raise {A} e.

Definition bind {A B : Type} (m : result A) (k : A -> result B) : result B :=
  match m with
  | Ok a => k a
  | Raise e => Raise e
  end.

Notation "x <- m ;; k" := (bind m (fun x => k))
  (at level 61, m at next level, right associativity).

Fixpoint mapM {A B : Type} (f : A -> result B) (l : list A) : result (list B) :=
  match l with
  | [] => Ok []
  | a :: l' => b <- f a ;; bs <- mapM f l' ;; Ok (b :: bs)
  end.

(** ** Strings: [str.upper] and the [in] operator *)

Definition upper_ascii (c : ascii) : ascii :=
  let n := nat_of_ascii c in
  if (97 <=? n) && (n <=? 122) then ascii_of_nat (n - 32) else c.

Fixpoint upper (s : string) : string :=
  match s with
  | EmptyString => EmptyString
  | String c s' => String (upper_ascii c) (upper s')
  end.

Fixpoint startswith (k s : string) : bool :=
  match k, s with
  | EmptyString, _ => true
  | String _ _, EmptyString => false
  | String a k', String b s' => Ascii.eqb a b && startswith k' s'
  end.

(** [contains k s] is Python's [k in s] on strings. *)
Fixpoint contains (k s : string) : bool :=
  startswith k s ||
  match s with
  | EmptyString => false
  | String _ s' => contains k s'
  end.

(** [isin x l] is the membership test of [Series.isin] on text cells. *)
Definition isin (x : string) (l : list string) : bool :=
  existsb (String.eqb x) l.

(** ** The role table *)

(** Python dicts iterate in insertion order: an association list. *)
Definition role_map : list (string * list string) :=
  [ ("WK", ["BAT WK"; "WK"]);
    ("BAT", ["BAT"; "BATTER"]);
    ("AR", ["AR"; "ALL-ROUNDER"]);
    ("BOWL", ["BOWL"; "BOWLER"]) ].

Definition role_priority : list (string * Z) :=
  [ ("WK", 1%Z); ("BAT", 2%Z); ("AR", 3%Z); ("BOWL", 4%Z) ].

(** [d[k]]: a missing key raises [KeyError]. *)
Fixpoint getitem {V : Type} (d : list (string * V)) (k : string) : result V :=
  match d with
  | [] => Raise (KeyError k)
  | (k', v) :: d' => if String.eqb k k' then Ok v else getitem d' k
  end.

(** [next((role_priority[k] for k in role_priority
           if any(kw in R for kw in role_map[k])), 99)], over the entries
    of [role_priority] still to visit. *)
Fixpoint next_priority (entries : list (string * Z)) (R : string) : result Z :=
  match entries with
  | [] => Ok 99%Z
  | (k, prio) :: rest =>
      keywords <- getitem role_map k ;;
      if existsb (fun kw => contains kw R) keywords
      then Ok prio
      else next_priority rest R
  end.

(** The lambda applied to the [Role] column in both summary branches. *)
Definition role_order (r : string) : result Z :=
  next_priority role_priority (upper r).

(** The mask [Role.str.upper().isin(keywords)] of the tabs. *)
Definition role_isin (keywords : list string) (r : string) : bool :=
  isin (upper r) keywords.

(** *** The classifier in the words of its contract *)

Inductive RoleBucket : Type := WK | BAT | AR | BOWL.

Definition keyword_table (b : RoleBucket) : list string :=
  match b with
  | WK => ["BAT WK"; "WK"]
  | BAT => ["BAT"; "BATTER"]
  | AR => ["AR"; "ALL-ROUNDER"]
  | BOWL => ["BOWL"; "BOWLER"]
  end.

Definition bucket_key (b : RoleBucket) : string :=
  match b with
  | WK => "WK" | BAT => "BAT" | AR => "AR" | BOWL => "BOWL"
  end.

Definition bucket_priority (b : RoleBucket) : Z :=
  match b with
  | WK => 1 | BAT => 2 | AR => 3 | BOWL => 4
  end%Z.

(** A keyword occurs inside the text. *)
Definition substring_of (k s : string) : Prop :=
  exists pre post, s = (pre ++ k ++ post)%string.

(** Bucket [b] matches role [r] for ordering purposes. *)
Definition substring_match (b : RoleBucket) (r : string) : Prop :=
  exists kw, In kw (keyword_table b) /\ substring_of kw (upper r).

Definition buckets_before (b : RoleBucket) : list RoleBucket :=
  match b with
  | WK => []
  | BAT => [WK]
  | AR => [WK; BAT]
  | BOWL => [WK; BAT; AR]
  end.

Definition matches_bucket (b : RoleBucket) (R : string) : bool :=
  existsb (fun kw => contains kw R) (keyword_table b).

(** Priority of a role text: the first bucket in the order WK, BAT, AR,
    BOWL one of whose keywords occurs in the upper-cased text, else 99. *)
Definition classify_priority (r : string) : Z :=
  let R := upper r in
  if matches_bucket WK R then bucket_priority WK
  else if matches_bucket BAT R then bucket_priority BAT
  else if matches_bucket AR R then bucket_priority AR
  else if matches_bucket BOWL R then bucket_priority BOWL
  else 99%Z.

(** ** Frames *)

(** One row of the player table; [num] is the type of a numeric cell. *)
Record Row (num : Type) : Type := mkRow {
  player_name : string;
  Team_2025 : string;
  Role : string;
  Total_Matches : num;
  Strike_Rate : num;
  Economy_Rate : num;
  Predicted_Fantasy_Score : num
}.

Arguments mkRow {num}.
Arguments player_name {num}.
Arguments Team_2025 {num}.
Arguments Role {num}.
Arguments Total_Matches {num}.
Arguments Strike_Rate {num}.
Arguments Economy_Rate {num}.
Arguments Predicted_Fantasy_Score {num}.

(** A row as [read_csv] parses it: [None] is a missing (NaN) cell. *)
Abbreviation CsvRow := (Row (option Q)).

(** A row of the loaded table. *)
Abbreviation Player := (Row Q).

(** The numeric cells of a row, in column order. *)
Definition numeric_cells {num : Type} (r : Row num) : list num :=
  [Total_Matches r; Strike_Rate r; Economy_Rate r; Predicted_Fantasy_Score r].

(** ** [load_data] *)

(** [Series.fillna(v)] on one cell. *)
Definition fillna_cell (v : Q) (c : option Q) : option Q :=
  match c with
  | Some x => Some x
  | None => Some v
  end.

(** [df[numeric_cols] = df[numeric_cols].fillna(v)] on one row. *)
Definition fillna (v : Q) (r : CsvRow) : CsvRow :=
  mkRow (player_name r) (Team_2025 r) (Role r)
        (fillna_cell v (Total_Matches r))
        (fillna_cell v (Strike_Rate r))
        (fillna_cell v (Economy_Rate r))
        (fillna_cell v (Predicted_Fantasy_Score r)).

(** [load_data], given the table that [read_csv] returned. *)
Definition load_data (csv : list CsvRow) : list CsvRow :=
  let df := map (fillna 0) csv in
  filter (fun r => negb (Team_2025 r =? "-")%string) df.

(** Reading a row whose numeric cells are all present. *)
Definition values (r : CsvRow) : option Player :=
  match Total_Matches r, Strike_Rate r, Economy_Rate r,
        Predicted_Fantasy_Score r with
  | Some m, Some sr, Some e, Some f =>
      Some (mkRow (player_name r) (Team_2025 r) (Role r) m sr e f)
  | _, _, _, _ => None
  end.

(** ** The sidebar filter *)

Record Criteria : Type := mkCriteria {
  selected_teams : list string;
  min_matches : Z;
  min_sr : Q;
  max_econ : Q
}.

Definition threshold_mask (c : Criteria) (p : Player) : bool :=
  Qle_bool (inject_Z (min_matches c)) (Total_Matches p)
  && Qle_bool (min_sr c) (Strike_Rate p)
  && Qle_bool (Economy_Rate p) (max_econ c).

Definition filtered_df (df : list Player) (c : Criteria) : list Player :=
  let filtered := filter (threshold_mask c) df in
  match selected_teams c with
  | [] => filtered
  | _ :: _ => filter (fun p => isin (Team_2025 p) (selected_teams c)) filtered
  end.

(** The predicate of the filter contract: the four clauses conjoined. *)
Definition retained (c : Criteria) (p : Player) : bool :=
  Qle_bool (inject_Z (min_matches c)) (Total_Matches p)
  && Qle_bool (min_sr c) (Strike_Rate p)
  && Qle_bool (Economy_Rate p) (max_econ c)
  && (match selected_teams c with [] => true | _ :: _ => false end
      || isin (Team_2025 p) (selected_teams c)).

(** ** Sorting *)

Section Sorting.
Context {A K : Type} (leb : K -> K -> bool) (key : A -> K).

(** [x] stood before every row of [l]: it goes before the first row whose
    key does not come strictly first, so equal keys keep their order. *)
Fixpoint insert_row (x : A) (l : list A) : list A :=
  match l with
  | [] => [x]
  | y :: l' => if leb (key x) (key y) then x :: l else y :: insert_row x l'
  end.

(** [DataFrame.sort_values] on the column [key], in the order [leb]. *)
Definition sort_values (l : list A) : list A :=
  fold_right insert_row [] l.
End Sorting.

(** [sort_values("Predicted_Fantasy_Score", ascending=False)]. *)
Definition sort_by_score (rows : list Player) : list Player :=
  sort_values (fun a b => Qle_bool b a) Predicted_Fantasy_Score rows.

(** The three lines that add the [role_order] column, sort on it and drop
    it again. *)
Definition sort_by_role_order (rows : list Player) : result (list Player) :=
  col <- mapM role_order (map Role rows) ;;
  Ok (map fst (sort_values Z.leb snd (combine rows col))).

(** Ascending role priority, read off the lambda of the script. *)
Definition role_order_le (a b : Player) : Prop :=
  exists m n, role_order (Role a) = Ok m /\ role_order (Role b) = Ok n /\
              (m <= n)%Z.

(** Non-ascending predicted score. *)
Definition score_ge (a b : Player) : Prop :=
  (Predicted_Fantasy_Score b <= Predicted_Fantasy_Score a)%Q.

(** [Series.sum], accumulating from the first row on. *)
Definition sum (l : list Q) : Q := fold_left Qplus l 0%Q.

(** ** The role tabs *)

(** [filtered_df[filtered_df["Role"].str.upper().isin(keywords)]]. *)
Definition role_df (keywords : list string) (filtered : list Player)
  : list Player :=
  filter (fun p => role_isin keywords (Role p)) filtered.

Definition wk_df := role_df ["BAT WK"; "WK"].
Definition bat_df := role_df ["BAT"; "BATTER"].
Definition ar_df := role_df ["AR"; "ALL-ROUNDER"].
Definition bowl_df := role_df ["BOWL"; "BOWLER"].

(** What a multiselect over the names of [options] can hand back. *)
Definition update_selection (options : list Player) (chosen : list string)
  : Prop :=
  NoDup chosen /\ incl chosen (map player_name options).

(** ** Optimize XI *)

(** [pd.DataFrame()] has no columns; every other frame of the script is a
    slice of the filtered table and has them all. *)
Inductive DataFrame : Type :=
| NoColumns
| Frame (rows : list Player).

Definition len (d : DataFrame) : nat :=
  match d with
  | NoColumns => 0
  | Frame rows => List.length rows
  end.

(** [pd.concat([d, rows])]. *)
Definition concat (d : DataFrame) (rows : list Player) : DataFrame :=
  match d with
  | NoColumns => Frame rows
  | Frame rows0 => Frame (rows0 ++ rows)
  end.

(** [d[column]], as the rows that carry the column. *)
Definition getcolumn (d : DataFrame) (column : string) : result (list Player) :=
  match d with
  | NoColumns => Raise (KeyError column)
  | Frame rows => Ok rows
  end.

(** The body of the loop over [role_map.items()]. *)
Definition pick_best (filtered : list Player) (auto_team : DataFrame)
  (entry : string * list string) : DataFrame :=
  let sub := role_df (snd entry) filtered in
  if 0 <? List.length sub
  then concat auto_team (firstn 1 (sort_by_score sub))
  else auto_team.

Definition best_per_role (filtered : list Player) : DataFrame :=
  fold_left (pick_best filtered) role_map NoColumns.

(** The [if len(auto_team) < 11] block. *)
Definition top_up (filtered : list Player) (auto_team : DataFrame)
  : result DataFrame :=
  if len auto_team <? 11 then
    taken <- getcolumn auto_team "player_name" ;;
    let remaining :=
      filter (fun p => negb (isin (player_name p) (map player_name taken)))
             filtered in
    let add := firstn (11 - len auto_team) (sort_by_score remaining) in
    Ok (concat auto_team add)
  else Ok auto_team.

(** The row that the loop body contributes for one keyword list. *)
Definition best (filtered : list Player) (keywords : list string)
  : list Player :=
  firstn 1 (sort_by_score (role_df keywords filtered)).

(** The rows that the loop contributes, in loop order. *)
Definition picks (filtered : list Player) : list Player :=
  flat_map (fun entry => best filtered (snd entry)) role_map.

(** The rows that the top-up adds after [taken]. *)
Definition added (filtered taken : list Player) : list Player :=
  firstn (11 - List.length taken)
    (sort_by_score
       (filter (fun p => negb (isin (player_name p) (map player_name taken)))
               filtered)).

(** [concat] when there is something to add. *)
Definition add_rows (d : DataFrame) (rows : list Player) : DataFrame :=
  match rows with
  | [] => d
  | _ :: _ => concat d rows
  end.

(** No two rows have equal predicted scores. *)
Definition distinct_scores (rows : list Player) : Prop :=
  ForallOrdPairs
    (fun a b => ~ (Predicted_Fantasy_Score a == Predicted_Fantasy_Score b)%Q)
    rows.

(** The roster as assembled before any re-sorting. *)
Definition assemble (filtered : list Player) : result DataFrame :=
  top_up filtered (best_per_role filtered).

(** The role sort followed by the score sort and [reset_index]. *)
Definition sort_roster (auto_team : DataFrame) : result (list Player) :=
  rows <- getcolumn auto_team "Role" ;;
  by_role <- sort_by_role_order rows ;;
  Ok (sort_by_score by_role).

(** The same pipeline with the role sort left out. *)
Definition sort_roster_score_only (auto_team : DataFrame)
  : result (list Player) :=
  rows <- getcolumn auto_team "Predicted_Fantasy_Score" ;;
  Ok (sort_by_score rows).

Definition auto_roster (filtered : list Player) : result (list Player) :=
  auto_team <- assemble filtered ;;
  sort_roster auto_team.

Definition auto_roster_score_only (filtered : list Player)
  : result (list Player) :=
  auto_team <- assemble filtered ;;
  sort_roster_score_only auto_team.

(** The list comprehension over [range(11)]. *)
Definition team_roles : list string :=
  map (fun i => if i =? 0 then "Captain"%string
                else if i =? 1 then "Vice Captain"%string
                else "Player"%string)
      (seq 0 11).

(** [frame[column] = values] with a list: the lengths must agree. *)
Definition setcolumn {A B : Type} (rows : list A) (vals : list B)
  : result (list (A * B)) :=
  if List.length vals =? List.length rows
  then Ok (combine rows vals)
  else Raise (ValueError (List.length vals) (List.length rows)).

(** Total and average as the optimize branch prints them. *)
Definition auto_summary (rows : list Player) : Q * Q :=
  let total_score := sum (map Predicted_Fantasy_Score rows) in
  (total_score, (total_score / 11)%Q).

(** The whole optimize branch: the displayed table, total and average. *)
Definition optimize_xi (filtered : list Player)
  : result (list (Player * string) * (Q * Q)) :=
  rows <- auto_roster filtered ;;
  team <- setcolumn rows team_roles ;;
  Ok (team, auto_summary rows).

(** ** The summary tab *)

(** What the tab puts on the page.  Numbers are reported exactly; the
    script prints them rounded to two decimals. *)
Inductive widget : Type :=
| st_error (selected : nat)
| st_write (selected : nat)
| st_success
| st_team (table : list (Player * string))
| st_dataframe (table : list Player)
| st_info (total_score avg : Q)
| st_warning.

(** [list(set(chosen_wk + chosen_bat + chosen_ar + chosen_bowl))]; only its
    length and membership are used. *)
Definition user_selection (chosen_wk chosen_bat chosen_ar chosen_bowl
  : list string) : list string :=
  nodup string_dec (chosen_wk ++ chosen_bat ++ chosen_ar ++ chosen_bowl).

(** [filtered_df[filtered_df["player_name"].isin(user_selection)]]. *)
Definition user_df (filtered : list Player) (selection : list string)
  : list Player :=
  filter (fun p => isin (player_name p) selection) filtered.

(** The "Restrict to 11 players" block: the message, if any, and the frame
    that goes on. *)
Definition restrict (selection : list string) (udf : list Player)
  : list widget * list Player :=
  if 11 <? List.length selection
  then ([st_error (List.length selection)], firstn 11 udf)
  else ([], udf).

(** Total and average as the manual branch prints them. *)
Definition manual_summary (rows : list Player) : Q * Q :=
  let total_score := sum (map Predicted_Fantasy_Score rows) in
  (total_score, (total_score / inject_Z (Z.of_nat (List.length rows)))%Q).

(** The manual branch on the frame [udf]. *)
Definition manual_team (udf : list Player) : result (list widget) :=
  if 0 <? List.length udf then
    sorted <- sort_by_role_order udf ;;
    let '(total_score, avg) := manual_summary sorted in
    Ok [st_dataframe sorted; st_info total_score avg]
  else Ok [st_warning].

(** The page of the summary tab and the exception that ended the run, if
    one did. *)
Definition tab_summary (filtered : list Player)
  (chosen_wk chosen_bat chosen_ar chosen_bowl : list string)
  (optimize : bool) : list widget * option exn :=
  let selection := user_selection chosen_wk chosen_bat chosen_ar chosen_bowl in
  let '(message, udf) := restrict selection (user_df filtered selection) in
  let page := message ++ [st_write (List.length udf)] in
  if optimize then
    match optimize_xi filtered with
    | Ok (team, (total_score, avg)) =>
        (page ++ [st_success; st_team team; st_info total_score avg], None)
    | Raise e => (page, Some e)
    end
  else
    match manual_team udf with
    | Ok shown => (page ++ shown, None)
    | Raise e => (page, Some e)
    end.

(** A page carries no scored summary. *)
Definition no_scored_summary (page : list widget) : Prop :=
  forall total_score avg, ~ In (st_info total_score avg) page.

(** ** Sample tables *)

Definition sample (name role : string) (score : Q) : Player :=
  mkRow name "MI" role 10%Q 120%Q 8%Q score.

(** Twelve players, three per tab. *)
Definition squad12 : list Player :=
  [ sample "k1" "WK" 61; sample "b1" "Batter" 72; sample "a1" "AR" 55;
    sample "o1" "Bowler" 48; sample "k2" "Bat WK" 43; sample "b2" "BAT" 67;
    sample "a2" "All-Rounder" 39; sample "o2" "BOWL" 52; sample "k3" "wk" 30;
    sample "b3" "bat" 28; sample "a3" "ar" 25; sample "o3" "bowl" 21 ]%Q.

(** Eleven players; the fifth and the sixth have equal scores. *)
Definition squad11 : list Player :=
  [ sample "p1" "WK" 90; sample "p2" "BAT" 80; sample "p3" "AR" 70;
    sample "p4" "BOWL" 60; sample "p5" "BOWL" 50; sample "p6" "WK" 50;
    sample "p7" "BAT" 40; sample "p8" "BAT" 30; sample "p9" "AR" 20;
    sample "p10" "BOWL" 10; sample "p11" "WK" 5 ]%Q.

(** ** The sidebar, the table and the chart *)

(** [Series.unique]: first occurrences, in order; [seen] holds the values
    already emitted. *)
Fixpoint unique_from (seen l : list string) : list string :=
  match l with
  | [] => []
  | x :: l' =>
      if isin x seen then unique_from seen l'
      else x :: unique_from (x :: seen) l'
  end.

Definition unique (l : list string) : list string := unique_from [] l.

(** [sorted(df["Team_2025"].dropna().unique().tolist())]: the options of the
    team multiselect.  Strings compare by character code. *)
Definition teams {num : Type} (df : list (Row num)) : list string :=
  sort_values String.leb (fun t => t) (unique (map Team_2025 df)).

(** The table under "Filtered Players": all seven columns, by descending
    predicted score. *)
Definition filtered_table (filtered : list Player) : list Player :=
  sort_by_score filtered.

(** The frame behind the bar chart. *)
Definition top10 (filtered : list Player) : list Player :=
  firstn 10 (sort_by_score filtered).

(** The options of a tab's multiselect. *)
Definition tab_options (role_rows : list Player) : list string :=
  map player_name role_rows.

(** Criteria [c'] are at least as strict as [c]. *)
Definition stricter (c c' : Criteria) : Prop :=
  (min_matches c <= min_matches c')%Z /\
  (min_sr c <= min_sr c')%Q /\
  (max_econ c' <= max_econ c)%Q /\
  (selected_teams c = [] \/
   (selected_teams c' <> [] /\
    incl (selected_teams c') (selected_teams c))).

(** A role text that some tab lists. *)
Definition in_some_tab (r : string) : Prop :=
  exists entry, In entry role_map /\ role_isin (snd entry) r = true.

(** ** Lemmas on strings *)

Lemma startswith_spec k s :
  startswith k s = true <-> exists post, s = (k ++ post)%string.
Proof.
  revert s; induction k as [|a k IH]; intros s; simpl.
  - split; [intros _; now exists s | reflexivity].
  - destruct s as [|b s].
    + split; [discriminate | intros [post H]; discriminate].
    + rewrite andb_true_iff, Ascii.eqb_eq, IH. split.
      * intros [-> [post ->]]. now exists post.
      * intros [post H]. injection H as -> ->. split; [reflexivity | now exists post].
Qed.

Lemma contains_spec k s : contains k s = true <-> substring_of k s.
Proof.
  unfold substring_of. induction s as [|c s IH]; simpl.
  - rewrite orb_false_r, startswith_spec. split.
    + intros [post H]. now exists EmptyString, post.
    + intros [pre [post H]]. destruct pre; simpl in H.
      * now exists post.
      * discriminate.
  - rewrite orb_true_iff, startswith_spec, IH. split.
    + intros [[post H] | [pre [post H]]].
      * now exists EmptyString, post.
      * exists (String c pre), post. simpl. now rewrite H.
    + intros [pre [post H]]. destruct pre as [|c' pre]; simpl in H.
      * left. now exists post.
      * right. injection H as _ H. now exists pre, post.
Qed.

Lemma isin_spec x l : isin x l = true <-> In x l.
Proof.
  unfold isin. rewrite existsb_exists. split.
  - intros [y [Hy H]]. apply String.eqb_eq in H. now subst.
  - intros H. exists x. split; [assumption | apply String.eqb_refl].
Qed.

Lemma existsb_contains_spec kws R :
  existsb (fun kw => contains kw R) kws = true <->
  exists kw, In kw kws /\ substring_of kw R.
Proof.
  rewrite existsb_exists. split; intros [kw [H1 H2]]; exists kw; split; auto;
    now apply contains_spec.
Qed.
(** ** The role classifier *)

Lemma role_order_classify (r : string) :
  role_order r = Ok (classify_priority r).
Proof.
  unfold role_order, classify_priority, matches_bucket. simpl.
  repeat match goal with
         | |- context [if ?b then _ else _] => destruct b; simpl
         end; reflexivity.
Qed.

Lemma matches_bucket_spec (b : RoleBucket) (r : string) :
  matches_bucket b (upper r) = true <-> substring_match b r.
Proof. apply existsb_contains_spec. Qed.

Lemma bucket_priority_inj (b b' : RoleBucket) :
  bucket_priority b = bucket_priority b' -> b = b'.
Proof. destruct b, b'; simpl; intros H; congruence. Qed.

Lemma bucket_priority_not_99 (b : RoleBucket) : bucket_priority b <> 99%Z.
Proof. destruct b; discriminate. Qed.

Ltac settle_buckets :=
  repeat match goal with
         | H : true = true <-> _ |- _ =>
             let H' := fresh "Hyes" in
             assert (H' := proj1 H eq_refl); clear H
         | H : false = true <-> _ |- _ =>
             let H' := fresh "Hno" in
             assert (H' := fun x => Bool.diff_false_true (proj2 H x)); clear H
         end.

Lemma classify_priority_bucket (r : string) (b : RoleBucket) :
  classify_priority r = bucket_priority b <->
  substring_match b r /\
  forall b', In b' (buckets_before b) -> ~ substring_match b' r.
Proof.
  unfold classify_priority.
  pose proof (matches_bucket_spec WK r) as HW.
  pose proof (matches_bucket_spec BAT r) as HB.
  pose proof (matches_bucket_spec AR r) as HA.
  pose proof (matches_bucket_spec BOWL r) as HO.
  destruct (matches_bucket WK (upper r));
    [| destruct (matches_bucket BAT (upper r));
       [| destruct (matches_bucket AR (upper r));
          [| destruct (matches_bucket BOWL (upper r))]]];
    settle_buckets; destruct b; simpl; split;
    try (intros H; discriminate H);
    try (intros _; split; [assumption | intros b' Hb'; intuition (subst; auto)]);
    try (intros [Hm Hbefore];
         first [ reflexivity
               | solve [exfalso; eauto]
               | solve [exfalso; apply (Hbefore WK); [tauto | assumption]]
               | solve [exfalso; apply (Hbefore BAT); [tauto | assumption]]
               | solve [exfalso; apply (Hbefore AR); [tauto | assumption]] ]).
Qed.

Lemma classify_priority_unranked (r : string) :
  classify_priority r = 99%Z <-> forall b, ~ substring_match b r.
Proof.
  unfold classify_priority.
  pose proof (matches_bucket_spec WK r) as HW.
  pose proof (matches_bucket_spec BAT r) as HB.
  pose proof (matches_bucket_spec AR r) as HA.
  pose proof (matches_bucket_spec BOWL r) as HO.
  destruct (matches_bucket WK (upper r));
    [| destruct (matches_bucket BAT (upper r));
       [| destruct (matches_bucket AR (upper r));
          [| destruct (matches_bucket BOWL (upper r))]]];
    settle_buckets; simpl; split;
    try (intros H; discriminate H);
    try (intros H; exfalso; eapply H; eassumption);
    try (intros _ b; destruct b; assumption);
    try reflexivity.
Qed.

Lemma role_df_In (keywords : list string) (filtered : list Player) (p : Player) :
  In p (role_df keywords filtered) <->
  In p filtered /\ In (upper (Role p)) keywords.
Proof.
  unfold role_df, role_isin. rewrite filter_In, isin_spec. reflexivity.
Qed.

(** C7.  The role classifier is total and uses one keyword table in two
    ways.  The tables of the script are the four buckets WK, BAT, AR, BOWL
    in that order with the keyword lists of the contract.  A tab keeps a
    player exactly when the upper-cased role text is a member of the
    bucket's keyword list.  The ordering lambda never raises: it returns the
    priority of the first bucket, in table order, one of whose keywords is a
    substring of the upper-cased role text, and 99 exactly when no bucket
    has such a keyword. *)
Theorem role_classifier_total_first_match :
  role_map = map (fun b => (bucket_key b, keyword_table b)) [WK; BAT; AR; BOWL] /\
  role_priority =
    map (fun b => (bucket_key b, bucket_priority b)) [WK; BAT; AR; BOWL] /\
  (forall (b : RoleBucket) (filtered : list Player) (p : Player),
      In p (role_df (keyword_table b) filtered) <->
      In p filtered /\ In (upper (Role p)) (keyword_table b)) /\
  (forall r : string, exists n, role_order r = Ok n) /\
  (forall (r : string) (b : RoleBucket),
      role_order r = Ok (bucket_priority b) <->
      substring_match b r /\
      forall b', In b' (buckets_before b) -> ~ substring_match b' r) /\
  (forall r : string,
      role_order r = Ok 99%Z <-> forall b, ~ substring_match b r).
Proof.
  split; [reflexivity |]. split; [reflexivity |].
  split; [intros b filtered p; apply role_df_In |].
  split; [intros r; exists (classify_priority r); apply role_order_classify |].
  split.
  - intros r b. rewrite role_order_classify, <- classify_priority_bucket.
    split; [intros H; injection H; auto | intros ->; reflexivity].
  - intros r. rewrite role_order_classify, <- classify_priority_unranked.
    split; [intros H; injection H; auto | intros ->; reflexivity].
Qed.

(** ** The loader *)

Lemma fillna_cell_spec (v : Q) (c : option Q) :
  fillna_cell v c = Some (match c with Some x => x | None => v end).
Proof. destruct c; reflexivity. Qed.

Lemma fillna_no_null (v : Q) (r : CsvRow) :
  Forall (fun c => c <> None) (numeric_cells (fillna v r)).
Proof.
  unfold numeric_cells, fillna; simpl.
  repeat constructor; rewrite fillna_cell_spec; discriminate.
Qed.

Lemma load_data_In (csv : list CsvRow) (r : CsvRow) :
  In r (load_data csv) <->
  exists raw, In raw csv /\ Team_2025 raw <> "-"%string /\ r = fillna 0 raw.
Proof.
  unfold load_data. rewrite filter_In, in_map_iff, negb_true_iff. split.
  - intros [[raw [<- Hin]] Hteam]. exists raw. simpl in Hteam.
    apply String.eqb_neq in Hteam. auto.
  - intros [raw [Hin [Hteam ->]]]. split.
    + exists raw. auto.
    + simpl. now apply String.eqb_neq.
Qed.

(** After loading every row can be read as a [Player]. *)
Lemma load_data_values (csv : list CsvRow) (r : CsvRow) :
  In r (load_data csv) -> exists p : Player, values r = Some p.
Proof.
  intros H. apply load_data_In in H. destruct H as [raw [_ [_ ->]]].
  unfold values, fillna; simpl. rewrite !fillna_cell_spec. eauto.
Qed.

(** C9.  [load_data] replaces the missing cells of the four numeric columns
    by 0, leaves present cells and the text columns as they are, and keeps
    exactly the rows whose team is not the sentinel "-", in their order.
    Hence no numeric cell of a loaded row is null and no loaded row has
    team "-". *)
Theorem load_data_fills_zero_and_drops_sentinel (csv : list CsvRow) :
  load_data csv =
    map (fillna 0) (filter (fun r => negb (Team_2025 r =? "-")%string) csv) /\
  (forall raw : CsvRow,
      player_name (fillna 0 raw) = player_name raw /\
      Team_2025 (fillna 0 raw) = Team_2025 raw /\
      Role (fillna 0 raw) = Role raw /\
      numeric_cells (fillna 0 raw) =
        map (fun c => Some (match c with Some x => x | None => 0%Q end))
            (numeric_cells raw)) /\
  (forall r : CsvRow,
      In r (load_data csv) <->
      exists raw, In raw csv /\ Team_2025 raw <> "-"%string /\ r = fillna 0 raw) /\
  Forall (fun r => Forall (fun c => c <> None) (numeric_cells r) /\
                   Team_2025 r <> "-"%string)
         (load_data csv).
Proof.
  split; [| split; [| split]].
  - unfold load_data. induction csv as [|raw csv IH]; simpl; [reflexivity |].
    destruct (Team_2025 raw =? "-")%string; simpl; now rewrite IH.
  - intros raw. repeat split.
    unfold numeric_cells, fillna; simpl. now rewrite !fillna_cell_spec.
  - apply load_data_In.
  - apply Forall_forall. intros r Hr. apply load_data_In in Hr.
    destruct Hr as [raw [_ [Hteam ->]]]. split.
    + apply fillna_no_null.
    + exact Hteam.
Qed.

(** ** The filter *)

Lemma filter_filter {A : Type} (f g : A -> bool) (l : list A) :
  filter g (filter f l) = filter (fun x => f x && g x) l.
Proof.
  induction l as [|a l IH]; simpl; [reflexivity |].
  destruct (f a); simpl; [destruct (g a) |]; now rewrite IH.
Qed.

Lemma filtered_df_retained (df : list Player) (c : Criteria) :
  filtered_df df c = filter (retained c) df.
Proof.
  unfold filtered_df, retained.
  destruct (selected_teams c) as [|t ts] eqn:E.
  - apply filter_ext. intros p. unfold threshold_mask.
    now rewrite orb_true_l, andb_true_r.
  - rewrite filter_filter. apply filter_ext. intros p. reflexivity.
Qed.

Lemma retained_spec (c : Criteria) (p : Player) :
  retained c p = true <->
  (inject_Z (min_matches c) <= Total_Matches p)%Q /\
  (min_sr c <= Strike_Rate p)%Q /\
  (Economy_Rate p <= max_econ c)%Q /\
  (selected_teams c = [] \/ In (Team_2025 p) (selected_teams c)).
Proof.
  unfold retained.
  rewrite !andb_true_iff, orb_true_iff, !Qle_bool_iff, isin_spec.
  destruct (selected_teams c); intuition congruence.
Qed.

(** C4.  The filter is one pass with the four clauses conjoined: a row of the
    dataset is kept exactly when matches >= min_matches, strike rate >=
    min_sr, economy rate <= max_econ and the team subset is empty or holds
    its team.  The result is the dataset with the other rows removed (so a
    subset, in dataset order); it is a plain list, empty when no row
    qualifies. *)
Theorem filtered_df_keeps_iff_all_four (df : list Player) (c : Criteria) :
  filtered_df df c = filter (retained c) df /\
  (forall p : Player,
      In p (filtered_df df c) <->
      In p df /\
      (inject_Z (min_matches c) <= Total_Matches p)%Q /\
      (min_sr c <= Strike_Rate p)%Q /\
      (Economy_Rate p <= max_econ c)%Q /\
      (selected_teams c = [] \/ In (Team_2025 p) (selected_teams c))) /\
  incl (filtered_df df c) df /\
  ((forall p, In p df -> retained c p = false) <-> filtered_df df c = []).
Proof.
  rewrite filtered_df_retained. split; [reflexivity |]. split; [| split].
  - intros p. now rewrite filter_In, retained_spec.
  - intros p Hp. now apply filter_In in Hp.
  - split.
    + intros H. induction df as [|a df IH]; simpl; [reflexivity |].
      rewrite (H a (or_introl eq_refl)). apply IH.
      intros p Hp. apply H. now right.
    + intros H p Hp. destruct (retained c p) eqn:E; [| reflexivity].
      assert (Hin : In p (filter (retained c) df)) by (apply filter_In; auto).
      rewrite H in Hin. destruct Hin.
Qed.

(** ** Sorting *)

Section SortingFacts.
Context {A K : Type} (leb : K -> K -> bool) (key : A -> K).

Lemma insert_row_perm (x : A) (l : list A) :
  Permutation (insert_row leb key x l) (x :: l).
Proof.
  induction l as [|y l IH]; simpl; [reflexivity |].
  destruct (leb (key x) (key y)); [reflexivity |].
  rewrite IH. apply perm_swap.
Qed.

Lemma sort_values_perm (l : list A) : Permutation (sort_values leb key l) l.
Proof.
  induction l as [|x l IH]; simpl; [reflexivity |].
  rewrite insert_row_perm. now constructor.
Qed.

Lemma sort_values_length (l : list A) :
  List.length (sort_values leb key l) = List.length l.
Proof. apply Permutation_length, sort_values_perm. Qed.

Lemma sort_values_In (l : list A) (x : A) :
  In x (sort_values leb key l) <-> In x l.
Proof.
  split; apply Permutation_in;
    [apply sort_values_perm | symmetry; apply sort_values_perm].
Qed.

Hypothesis leb_total : forall a b, leb a b = false -> leb b a = true.

Lemma insert_row_sorted (x : A) (l : list A) :
  Sorted (fun a b => leb (key a) (key b) = true) l ->
  Sorted (fun a b => leb (key a) (key b) = true) (insert_row leb key x l).
Proof.
  induction l as [|y l IH]; intros Hs; simpl.
  - repeat constructor.
  - destruct (leb (key x) (key y)) eqn:E.
    + constructor; [assumption |]. constructor. exact E.
    + inversion Hs as [|? ? Hs' Hhd]; subst.
      constructor; [now apply IH |].
      destruct l as [|z l]; simpl.
      * constructor. now apply leb_total.
      * destruct (leb (key x) (key z)); constructor.
        -- now apply leb_total.
        -- now inversion Hhd.
Qed.

Lemma sort_values_sorted (l : list A) :
  Sorted (fun a b => leb (key a) (key b) = true) (sort_values leb key l).
Proof.
  induction l as [|x l IH]; simpl; [constructor |].
  now apply insert_row_sorted.
Qed.

Hypothesis leb_trans :
  forall a b c, leb a b = true -> leb b c = true -> leb a c = true.

Lemma sort_values_strongly_sorted (l : list A) :
  StronglySorted (fun a b => leb (key a) (key b) = true)
    (sort_values leb key l).
Proof.
  apply Sorted_StronglySorted; [| apply sort_values_sorted].
  intros a b c. apply leb_trans.
Qed.
End SortingFacts.

(** Sorting on a column that was computed from the rows is sorting on the
    computation. *)
Lemma sort_values_tagged {A K : Type} (leb : K -> K -> bool) (f : A -> K)
  (l : list A) :
  map fst (sort_values leb snd (combine l (map f l))) = sort_values leb f l.
Proof.
  assert (Htag : combine l (map f l) = map (fun a => (a, f a)) l).
  { induction l as [|a l IH]; simpl; [reflexivity | now rewrite IH]. }
  rewrite Htag. clear Htag.
  assert (Hins : forall x l',
             insert_row leb snd (x, f x) (map (fun a => (a, f a)) l') =
             map (fun a => (a, f a)) (insert_row leb f x l')).
  { intros x l'. induction l' as [|y l' IH]; simpl; [reflexivity |].
    destruct (leb (f x) (f y)); simpl; [reflexivity | now rewrite IH]. }
  assert (Hsort : sort_values leb snd (map (fun a => (a, f a)) l) =
                  map (fun a => (a, f a)) (sort_values leb f l)).
  { induction l as [|x l IH]; simpl; [reflexivity |].
    now rewrite IH, Hins. }
  rewrite Hsort, map_map. simpl. apply map_id.
Qed.

Lemma mapM_total {A B : Type} (f : A -> result B) (g : A -> B) (l : list A) :
  (forall a, f a = Ok (g a)) -> mapM f l = Ok (map g l).
Proof.
  intros H. induction l as [|a l IH]; simpl; [reflexivity |].
  now rewrite H, IH.
Qed.

Lemma sort_by_role_order_total (rows : list Player) :
  sort_by_role_order rows =
  Ok (sort_values Z.leb (fun p => classify_priority (Role p)) rows).
Proof.
  unfold sort_by_role_order.
  rewrite (mapM_total role_order classify_priority _ role_order_classify).
  unfold bind. rewrite map_map. f_equal.
  apply (sort_values_tagged Z.leb (fun p => classify_priority (Role p))).
Qed.

Lemma Zleb_total (a b : Z) : (a <=? b)%Z = false -> (b <=? a)%Z = true.
Proof. rewrite Z.leb_gt, Z.leb_le. lia. Qed.

Lemma Zleb_trans (a b c : Z) :
  (a <=? b)%Z = true -> (b <=? c)%Z = true -> (a <=? c)%Z = true.
Proof. rewrite !Z.leb_le. lia. Qed.

Lemma Qgeb_total (a b : Q) : Qle_bool b a = false -> Qle_bool a b = true.
Proof.
  intros H. apply Qle_bool_iff.
  destruct (Qlt_le_dec a b) as [Hlt | Hle].
  - now apply Qlt_le_weak.
  - apply Qle_bool_iff in Hle. congruence.
Qed.

Lemma Qgeb_trans (a b c : Q) :
  Qle_bool b a = true -> Qle_bool c b = true -> Qle_bool c a = true.
Proof. rewrite !Qle_bool_iff. intros H1 H2. eapply Qle_trans; eassumption. Qed.

Lemma StronglySorted_weaken {A : Type} (R R' : A -> A -> Prop) (l : list A) :
  (forall a b, R a b -> R' a b) -> StronglySorted R l -> StronglySorted R' l.
Proof.
  intros Himp Hs. induction Hs as [|a l Hs IH Hall]; constructor.
  - exact IH.
  - eapply Forall_impl; [| exact Hall]. intros b. apply Himp.
Qed.

Lemma sort_by_role_order_sorted (rows : list Player) :
  StronglySorted role_order_le
    (sort_values Z.leb (fun p => classify_priority (Role p)) rows).
Proof.
  eapply StronglySorted_weaken;
    [| apply (sort_values_strongly_sorted Z.leb _ Zleb_total Zleb_trans)].
  simpl. intros a b H. exists (classify_priority (Role a)), (classify_priority (Role b)).
  rewrite !role_order_classify. repeat split. now apply Z.leb_le.
Qed.

Lemma sort_by_score_sorted (rows : list Player) :
  StronglySorted score_ge (sort_by_score rows).
Proof.
  eapply StronglySorted_weaken;
    [| apply (sort_values_strongly_sorted (fun a b => Qle_bool b a) _
                Qgeb_total Qgeb_trans)].
  simpl. intros a b H. now apply Qle_bool_iff.
Qed.

(** ** The manual branch *)

Lemma user_selection_NoDup (cw cb ca co : list string) :
  NoDup (user_selection cw cb ca co).
Proof. apply NoDup_nodup. Qed.

Lemma update_selection_incl (keywords : list string) (filtered : list Player)
  (chosen : list string) :
  update_selection (role_df keywords filtered) chosen ->
  incl chosen (map player_name filtered).
Proof.
  intros [_ H] x Hx. apply H in Hx. apply in_map_iff in Hx.
  destruct Hx as [p [<- Hp]]. apply in_map. now apply role_df_In in Hp.
Qed.

Lemma user_selection_incl (filtered : list Player) (cw cb ca co : list string) :
  update_selection (wk_df filtered) cw ->
  update_selection (bat_df filtered) cb ->
  update_selection (ar_df filtered) ca ->
  update_selection (bowl_df filtered) co ->
  incl (user_selection cw cb ca co) (map player_name filtered).
Proof.
  intros Hw Hb Ha Ho x Hx. unfold user_selection in Hx.
  apply nodup_In in Hx. rewrite !in_app_iff in Hx.
  destruct Hx as [Hx | [Hx | [Hx | Hx]]];
    [ exact (update_selection_incl _ _ _ Hw x Hx)
    | exact (update_selection_incl _ _ _ Hb x Hx)
    | exact (update_selection_incl _ _ _ Ha x Hx)
    | exact (update_selection_incl _ _ _ Ho x Hx) ].
Qed.

(** Every selected name that occurs in the table contributes a row. *)
Lemma user_df_covers (filtered : list Player) (selection : list string) :
  NoDup selection ->
  incl selection (map player_name filtered) ->
  List.length selection <= List.length (user_df filtered selection).
Proof.
  intros Hnd Hincl.
  assert (E : List.length (map player_name (user_df filtered selection)) =
              List.length (user_df filtered selection)) by apply length_map.
  rewrite <- E. apply NoDup_incl_length; [assumption |].
  intros x Hx. pose proof (Hincl x Hx) as Hin.
  apply in_map_iff in Hin. destruct Hin as [p [<- Hp]].
  apply in_map. unfold user_df. apply filter_In. split; [assumption |].
  now apply isin_spec.
Qed.

Lemma manual_team_shown (udf : list Player) :
  0 < List.length udf ->
  manual_team udf =
  let table := sort_values Z.leb (fun p => classify_priority (Role p)) udf in
  Ok [st_dataframe table;
      st_info (sum (map Predicted_Fantasy_Score table))
              (sum (map Predicted_Fantasy_Score table)
               / inject_Z (Z.of_nat (List.length table)))%Q].
Proof.
  intros H. unfold manual_team.
  apply Nat.ltb_lt in H. rewrite H.
  rewrite sort_by_role_order_total. reflexivity.
Qed.

(** C10.  In manual mode with between 1 and 11 distinct names picked in the
    tabs, the summary tab shows the count, then the picked rows sorted by
    ascending role priority (the priority the ordering lambda returns: WK,
    BAT, AR, BOWL by keyword substring, 99 last), then the total and
    average. *)
Theorem manual_table_sorted_by_role_priority (filtered : list Player)
  (cw cb ca co : list string) :
  update_selection (wk_df filtered) cw ->
  update_selection (bat_df filtered) cb ->
  update_selection (ar_df filtered) ca ->
  update_selection (bowl_df filtered) co ->
  1 <= List.length (user_selection cw cb ca co) <= 11 ->
  exists table total_score avg,
    tab_summary filtered cw cb ca co false =
      ([st_write (List.length table); st_dataframe table;
        st_info total_score avg], None) /\
    Permutation table (user_df filtered (user_selection cw cb ca co)) /\
    StronglySorted role_order_le table.
Proof.
  intros Hw Hb Ha Ho [Hlo Hhi].
  set (selection := user_selection cw cb ca co) in *.
  pose proof (user_df_covers filtered selection
                (user_selection_NoDup cw cb ca co)
                (user_selection_incl filtered cw cb ca co Hw Hb Ha Ho)) as Hcov.
  set (udf := user_df filtered selection) in *.
  set (table := sort_values Z.leb (fun p => classify_priority (Role p)) udf).
  exists table, (sum (map Predicted_Fantasy_Score table)),
    (sum (map Predicted_Fantasy_Score table)
     / inject_Z (Z.of_nat (List.length table)))%Q.
  split; [| split].
  - unfold tab_summary, restrict. fold selection. fold udf.
    assert (E : (11 <? List.length selection) = false)
      by (apply Nat.ltb_ge; lia).
    rewrite E. rewrite manual_team_shown by lia. simpl.
    fold table.
    replace (List.length udf) with (List.length table)
      by apply sort_values_length.
    reflexivity.
  - apply sort_values_perm.
  - apply sort_by_role_order_sorted.
Qed.

Lemma manual_table_sorted_by_role_priority_witness :
  exists table total_score avg,
    tab_summary squad12 ["k1"; "k3"] ["b2"] [] ["o1"; "o3"] false =
      ([st_write (List.length table); st_dataframe table;
        st_info total_score avg], None) /\
    Permutation table
      (user_df squad12 (user_selection ["k1"; "k3"] ["b2"] [] ["o1"; "o3"])) /\
    StronglySorted role_order_le table.
Proof.
  apply (manual_table_sorted_by_role_priority squad12
           ["k1"; "k3"] ["b2"] [] ["o1"; "o3"]).
  - split; [repeat constructor; simpl; intuition discriminate
           | intros x Hx; vm_compute in Hx |- *; tauto].
  - split; [repeat constructor; simpl; intuition discriminate
           | intros x Hx; vm_compute in Hx |- *; tauto].
  - split; [constructor | intros x Hx; destruct Hx].
  - split; [repeat constructor; simpl; intuition discriminate
           | intros x Hx; vm_compute in Hx |- *; tauto].
  - vm_compute. split; lia.
Defined.

(** All twelve players of [squad12], picked tab by tab. *)
Lemma squad12_selection :
  update_selection (wk_df squad12) ["k1"; "k2"; "k3"] /\
  update_selection (bat_df squad12) ["b1"; "b2"; "b3"] /\
  update_selection (ar_df squad12) ["a1"; "a2"; "a3"] /\
  update_selection (bowl_df squad12) ["o1"; "o2"; "o3"] /\
  List.length (user_selection ["k1"; "k2"; "k3"] ["b1"; "b2"; "b3"]
                 ["a1"; "a2"; "a3"] ["o1"; "o2"; "o3"]) = 12.
Proof.
  repeat split;
    try (repeat constructor; simpl; intuition discriminate);
    try (intros x Hx; vm_compute in Hx |- *; tauto).
Qed.

(** Twelve distinct names are selected, the overflow message is shown, and
    the page still carries a total and an average: those of the first
    eleven rows of the filtered table. *)
Lemma manual_overflow_still_scored :
  ~ (11 < List.length (user_selection ["k1"; "k2"; "k3"] ["b1"; "b2"; "b3"]
                         ["a1"; "a2"; "a3"] ["o1"; "o2"; "o3"]) ->
     no_scored_summary
       (fst (tab_summary squad12 ["k1"; "k2"; "k3"] ["b1"; "b2"; "b3"]
               ["a1"; "a2"; "a3"] ["o1"; "o2"; "o3"] false))).
Proof.
  intros H.
  assert (Hover : 11 < List.length
                         (user_selection ["k1"; "k2"; "k3"] ["b1"; "b2"; "b3"]
                            ["a1"; "a2"; "a3"] ["o1"; "o2"; "o3"])).
  { destruct squad12_selection as [_ [_ [_ [_ ->]]]]. lia. }
  specialize (H Hover).
  apply (H (sum (map Predicted_Fantasy_Score (firstn 11 squad12)))
           (sum (map Predicted_Fantasy_Score (firstn 11 squad12))
            / inject_Z 11)%Q).
  vm_compute. tauto.
Qed.

(** C1, as the script has it.  In manual mode, when more than 11 distinct
    names are picked in the tabs, the page shows the overflow message with
    the number selected, the matching rows are cut to the first 11 in the
    order of the filtered table, and those 11 are shown in role order and
    scored: the total is their sum and the average is that total over 11. *)
Theorem manual_overflow_truncates_then_scores (filtered : list Player)
  (cw cb ca co : list string) :
  update_selection (wk_df filtered) cw ->
  update_selection (bat_df filtered) cb ->
  update_selection (ar_df filtered) ca ->
  update_selection (bowl_df filtered) co ->
  11 < List.length (user_selection cw cb ca co) ->
  exists table,
    tab_summary filtered cw cb ca co false =
      ([st_error (List.length (user_selection cw cb ca co)); st_write 11;
        st_dataframe table;
        st_info (sum (map Predicted_Fantasy_Score table))
                (sum (map Predicted_Fantasy_Score table) / inject_Z 11)%Q],
       None) /\
    Permutation table
      (firstn 11 (user_df filtered (user_selection cw cb ca co))) /\
    List.length table = 11 /\
    StronglySorted role_order_le table.
Proof.
  intros Hw Hb Ha Ho Hover.
  set (selection := user_selection cw cb ca co) in *.
  pose proof (user_df_covers filtered selection
                (user_selection_NoDup cw cb ca co)
                (user_selection_incl filtered cw cb ca co Hw Hb Ha Ho)) as Hcov.
  set (udf := user_df filtered selection) in *.
  assert (Hcut : List.length (firstn 11 udf) = 11)
    by (rewrite length_firstn; lia).
  set (table := sort_values Z.leb (fun p => classify_priority (Role p))
                  (firstn 11 udf)).
  assert (Htable : List.length table = 11)
    by (unfold table; now rewrite sort_values_length).
  exists table. split; [| split; [| split]].
  - unfold tab_summary, restrict. fold selection. fold udf.
    apply Nat.ltb_lt in Hover. rewrite Hover.
    rewrite manual_team_shown by lia. cbv zeta. cbn [app]. fold table.
    now rewrite Hcut, Htable.
  - apply sort_values_perm.
  - exact Htable.
  - apply sort_by_role_order_sorted.
Qed.

Lemma manual_overflow_truncates_then_scores_witness :
  exists table,
    tab_summary squad12 ["k1"; "k2"; "k3"] ["b1"; "b2"; "b3"]
      ["a1"; "a2"; "a3"] ["o1"; "o2"; "o3"] false =
      ([st_error (List.length
                    (user_selection ["k1"; "k2"; "k3"] ["b1"; "b2"; "b3"]
                       ["a1"; "a2"; "a3"] ["o1"; "o2"; "o3"]));
        st_write 11; st_dataframe table;
        st_info (sum (map Predicted_Fantasy_Score table))
                (sum (map Predicted_Fantasy_Score table) / inject_Z 11)%Q],
       None) /\
    Permutation table
      (firstn 11 (user_df squad12
                    (user_selection ["k1"; "k2"; "k3"] ["b1"; "b2"; "b3"]
                       ["a1"; "a2"; "a3"] ["o1"; "o2"; "o3"]))) /\
    List.length table = 11 /\
    StronglySorted role_order_le table.
Proof.
  apply (manual_overflow_truncates_then_scores squad12
           ["k1"; "k2"; "k3"] ["b1"; "b2"; "b3"]
           ["a1"; "a2"; "a3"] ["o1"; "o2"; "o3"]).
  - split; [repeat constructor; simpl; intuition discriminate
           | intros x Hx; vm_compute in Hx |- *; tauto].
  - split; [repeat constructor; simpl; intuition discriminate
           | intros x Hx; vm_compute in Hx |- *; tauto].
  - split; [repeat constructor; simpl; intuition discriminate
           | intros x Hx; vm_compute in Hx |- *; tauto].
  - split; [repeat constructor; simpl; intuition discriminate
           | intros x Hx; vm_compute in Hx |- *; tauto].
  - vm_compute. lia.
Defined.

(** ** Assembling the automatic roster *)

Lemma firstn_incl {A : Type} (n : nat) (l : list A) (x : A) :
  In x (firstn n l) -> In x l.
Proof.
  intros H. rewrite <- (firstn_skipn n l). apply in_or_app. now left.
Qed.

Lemma best_length (filtered : list Player) (keywords : list string) :
  List.length (best filtered keywords) <= 1.
Proof. unfold best. rewrite length_firstn. lia. Qed.

Lemma best_In (filtered : list Player) (keywords : list string) (p : Player) :
  In p (best filtered keywords) ->
  In p filtered /\ role_isin keywords (Role p) = true.
Proof.
  unfold best. intros H. apply firstn_incl in H.
  apply sort_values_In in H. unfold role_df in H. now apply filter_In in H.
Qed.

Lemma pick_best_add_rows (filtered : list Player) (auto_team : DataFrame)
  (entry : string * list string) :
  pick_best filtered auto_team entry =
  add_rows auto_team (best filtered (snd entry)).
Proof.
  unfold pick_best, best.
  pose proof (sort_values_length (fun a b => Qle_bool b a)
                Predicted_Fantasy_Score (role_df (snd entry) filtered)) as Hlen.
  fold (sort_by_score (role_df (snd entry) filtered)) in Hlen.
  destruct (role_df (snd entry) filtered) as [|x sub].
  - reflexivity.
  - destruct (sort_by_score (x :: sub)) as [|y sorted].
    + discriminate Hlen.
    + reflexivity.
Qed.

Lemma add_rows_app (d : DataFrame) (a b : list Player) :
  add_rows (add_rows d a) b = add_rows d (a ++ b).
Proof.
  destruct a as [|x a]; [reflexivity |].
  destruct b as [|y b]; simpl.
  - now rewrite app_nil_r.
  - destruct d; simpl; [reflexivity | now rewrite <- app_assoc].
Qed.

Lemma fold_pick_best (filtered : list Player)
  (entries : list (string * list string)) (auto_team : DataFrame) :
  fold_left (pick_best filtered) entries auto_team =
  add_rows auto_team (flat_map (fun entry => best filtered (snd entry)) entries).
Proof.
  revert auto_team. induction entries as [|e entries IH]; intros auto_team.
  - reflexivity.
  - simpl. now rewrite IH, pick_best_add_rows, add_rows_app.
Qed.

Lemma best_per_role_picks (filtered : list Player) :
  best_per_role filtered = add_rows NoColumns (picks filtered).
Proof. apply fold_pick_best. Qed.

Lemma picks_length (filtered : list Player) : List.length (picks filtered) <= 4.
Proof.
  unfold picks, role_map. simpl. rewrite !length_app. simpl.
  pose proof (best_length filtered ["BAT WK"; "WK"]).
  pose proof (best_length filtered ["BAT"; "BATTER"]).
  pose proof (best_length filtered ["AR"; "ALL-ROUNDER"]).
  pose proof (best_length filtered ["BOWL"; "BOWLER"]).
  lia.
Qed.

(** Assembly either stops at the lookup of [player_name] in the column-less
    frame, when no tab has a row, or appends the top-up to the picks. *)
Lemma assemble_cases (filtered : list Player) :
  (picks filtered = [] /\
   assemble filtered = Raise (KeyError "player_name")) \/
  (picks filtered <> [] /\
   assemble filtered =
     Ok (Frame (picks filtered ++ added filtered (picks filtered)))).
Proof.
  unfold assemble. rewrite best_per_role_picks.
  pose proof (picks_length filtered) as Hlen.
  destruct (picks filtered) as [|x rows] eqn:E.
  - left. split; reflexivity.
  - right. split; [discriminate |].
    unfold top_up, add_rows, concat, len.
    assert (Hlt : (List.length (x :: rows) <? 11) = true)
      by (apply Nat.ltb_lt; lia).
    rewrite Hlt. reflexivity.
Qed.

Lemma assemble_Ok (filtered : list Player) (d : DataFrame) :
  assemble filtered = Ok d ->
  picks filtered <> [] /\
  d = Frame (picks filtered ++ added filtered (picks filtered)).
Proof.
  intros H. destruct (assemble_cases filtered) as [[_ E] | [Hne E]];
    rewrite E in H; [discriminate | injection H as <-; auto].
Qed.

Lemma tabs_exclusive (r : string) :
  (role_isin ["BAT WK"; "WK"] r = true ->
   role_isin ["BAT"; "BATTER"] r = false /\
   role_isin ["AR"; "ALL-ROUNDER"] r = false /\
   role_isin ["BOWL"; "BOWLER"] r = false) /\
  (role_isin ["BAT"; "BATTER"] r = true ->
   role_isin ["AR"; "ALL-ROUNDER"] r = false /\
   role_isin ["BOWL"; "BOWLER"] r = false) /\
  (role_isin ["AR"; "ALL-ROUNDER"] r = true ->
   role_isin ["BOWL"; "BOWLER"] r = false).
Proof.
  unfold role_isin. remember (upper r) as R eqn:ER. clear ER r.
  split; [| split]; intros H; apply isin_spec in H; simpl in H;
    repeat match goal with
           | H : _ \/ _ |- _ => destruct H as [H | H]
           | H : False |- _ => destruct H
           end; subst R; repeat split.
Qed.

Lemma NoDup_short {A : Type} (l : list A) : List.length l <= 1 -> NoDup l.
Proof.
  destruct l as [|a [|b l]]; simpl; intros H.
  - constructor.
  - constructor; [intros [] | constructor].
  - lia.
Qed.

Lemma picks_In (filtered : list Player) (p : Player) :
  In p (picks filtered) -> In p filtered.
Proof.
  unfold picks. rewrite in_flat_map. intros [e [_ H]]. now apply best_In in H.
Qed.

Lemma picks_NoDup (filtered : list Player) : NoDup (picks filtered).
Proof.
  unfold picks, role_map. simpl. rewrite app_nil_r.
  repeat apply NoDup_app; try (apply NoDup_short, best_length).
  all: intros p Hp; rewrite ?in_app_iff; intros Hq;
    apply best_In in Hp; destruct Hp as [_ Hp];
    destruct (tabs_exclusive (Role p)) as [Hw [Hb Ha]];
    repeat match goal with
           | H : _ \/ _ |- _ => destruct H as [H | H]
           | H : In _ (best _ _) |- _ => apply best_In in H; destruct H as [_ H]
           end;
    try (specialize (Hw Hp)); try (specialize (Hb Hp));
    try (specialize (Ha Hp)); intuition congruence.
Qed.

Lemma NoDup_map_inj {A B : Type} (f : A -> B) (l : list A) (a b : A) :
  NoDup (map f l) -> In a l -> In b l -> f a = f b -> a = b.
Proof.
  induction l as [|x l IH]; simpl; intros Hnd Ha Hb E; [destruct Ha |].
  inversion Hnd as [|? ? Hx Hnd']; subst.
  destruct Ha as [-> | Ha], Hb as [-> | Hb].
  - reflexivity.
  - exfalso. apply Hx. rewrite E. now apply in_map.
  - exfalso. apply Hx. rewrite <- E. now apply in_map.
  - now apply IH.
Qed.


Lemma NoDup_map_filter {A B : Type} (f : A -> B) (g : A -> bool) (l : list A) :
  NoDup (map f l) -> NoDup (map f (filter g l)).
Proof.
  induction l as [|a l IH]; simpl; intros Hnd; [constructor |].
  inversion Hnd as [|? ? Ha Hnd']; subst.
  destruct (g a); simpl; [| now apply IH].
  constructor; [| now apply IH].
  intros Hin. apply Ha. apply in_map_iff in Hin.
  destruct Hin as [b [E Hb]]. apply filter_In in Hb.
  rewrite <- E. apply in_map. tauto.
Qed.

(** The rows whose names were taken are at least the rows taken. *)
Lemma taken_rows_lower (filtered taken : list Player) :
  NoDup taken -> incl taken filtered ->
  List.length taken <=
  List.length (user_df filtered (map player_name taken)).
Proof.
  intros Hnd Hincl. apply NoDup_incl_length; [assumption |].
  intros p Hp. unfold user_df. apply filter_In. split; [now apply Hincl |].
  apply isin_spec. now apply in_map.
Qed.

Lemma taken_rows_upper (filtered taken : list Player) :
  NoDup (map player_name filtered) ->
  List.length (user_df filtered (map player_name taken)) <=
  List.length taken.
Proof.
  intros Hnd.
  assert (E1 : List.length (map player_name
                              (user_df filtered (map player_name taken))) =
               List.length (user_df filtered (map player_name taken)))
    by apply length_map.
  assert (E2 : List.length (map player_name taken) = List.length taken)
    by apply length_map.
  rewrite <- E1, <- E2. apply NoDup_incl_length.
  - unfold user_df. now apply NoDup_map_filter.
  - intros x Hx. apply in_map_iff in Hx. destruct Hx as [p [<- Hp]].
    unfold user_df in Hp. apply filter_In in Hp. now apply isin_spec.
Qed.

Lemma added_length (filtered taken : list Player) :
  List.length (added filtered taken) =
  Nat.min (11 - List.length taken)
    (List.length filtered -
     List.length (user_df filtered (map player_name taken))).
Proof.
  unfold added. rewrite length_firstn. unfold sort_by_score.
  rewrite sort_values_length. f_equal.
  pose proof (filter_length
                (fun p => isin (player_name p) (map player_name taken))
                filtered) as H.
  cbv beta in H. unfold user_df. lia.
Qed.

(** The assembled roster never has more rows than the filtered table, nor
    more than 11. *)
Lemma assemble_length_le (filtered : list Player) (rows : list Player) :
  assemble filtered = Ok (Frame rows) ->
  List.length rows <= 11 /\ List.length rows <= List.length filtered.
Proof.
  intros H. apply assemble_Ok in H. destruct H as [_ H].
  injection H as ->. rewrite length_app, added_length.
  pose proof (picks_length filtered).
  pose proof (taken_rows_lower filtered (picks filtered)
                (picks_NoDup filtered) (picks_In filtered)).
  pose proof (filter_length_le
                (fun p => isin (player_name p)
                            (map player_name (picks filtered))) filtered) as Hle.
  unfold user_df in *. lia.
Qed.

(** With distinct names, and at least one tab that has a row, the assembled
    roster has min(11, size of the filtered table) rows. *)
Lemma assemble_length (filtered : list Player) :
  NoDup (map player_name filtered) ->
  picks filtered <> [] ->
  exists rows,
    assemble filtered = Ok (Frame rows) /\
    List.length rows = Nat.min 11 (List.length filtered).
Proof.
  intros Hnd Hne.
  destruct (assemble_cases filtered) as [[E _] | [_ E]]; [contradiction |].
  eexists. split; [exact E |].
  rewrite length_app, added_length.
  pose proof (picks_length filtered).
  pose proof (taken_rows_lower filtered (picks filtered)
                (picks_NoDup filtered) (picks_In filtered)).
  pose proof (taken_rows_upper filtered (picks filtered) Hnd).
  pose proof (filter_length_le
                (fun p => isin (player_name p)
                            (map player_name (picks filtered))) filtered) as Hle.
  unfold user_df in *. lia.
Qed.

(** C5.  The claim promises a roster of min(11, size of the pool) rows for
    every pool.  On a pool none of whose roles is a keyword of a tab (the
    empty pool; a pool of one "Allrounder") the loop adds nothing, the
    roster is still the column-less [pd.DataFrame()], and the top-up stops
    at [auto_team["player_name"]] with a KeyError: no roster of size 0 or 1
    is assembled. *)
Theorem assemble_no_tab_row_raises :
  assemble [] = Raise (KeyError "player_name") /\
  assemble [sample "a" "Allrounder" 50%Q] = Raise (KeyError "player_name") /\
  NoDup (map player_name [sample "a" "Allrounder" 50%Q]) /\
  Nat.min 11 (List.length [sample "a" "Allrounder" 50%Q]) = 1.
Proof.
  repeat split.
  constructor; [intros [] | constructor].
Qed.

(** ** Re-sorting, designations and summary of the automatic roster *)

Lemma sort_roster_Frame (rows : list Player) :
  sort_roster (Frame rows) =
  Ok (sort_by_score
        (sort_values Z.leb (fun p => classify_priority (Role p)) rows)).
Proof.
  unfold sort_roster, getcolumn, bind. now rewrite sort_by_role_order_total.
Qed.

Lemma auto_roster_cases (filtered : list Player) :
  (picks filtered = [] /\
   auto_roster filtered = Raise (KeyError "player_name") /\
   auto_roster_score_only filtered = Raise (KeyError "player_name")) \/
  (exists rows,
      assemble filtered = Ok (Frame rows) /\
      auto_roster filtered =
        Ok (sort_by_score
              (sort_values Z.leb (fun p => classify_priority (Role p)) rows)) /\
      auto_roster_score_only filtered = Ok (sort_by_score rows)).
Proof.
  unfold auto_roster, auto_roster_score_only.
  destruct (assemble_cases filtered) as [[E1 E2] | [_ E]].
  - left. rewrite E2. auto.
  - right. eexists. split; [exact E |]. rewrite E. unfold bind.
    now rewrite sort_roster_Frame.
Qed.

Lemma auto_roster_perm (filtered rows final : list Player) :
  assemble filtered = Ok (Frame rows) ->
  auto_roster filtered = Ok final ->
  Permutation final rows /\ StronglySorted score_ge final.
Proof.
  intros Ha Hr. unfold auto_roster in Hr. rewrite Ha in Hr. unfold bind in Hr.
  rewrite sort_roster_Frame in Hr. injection Hr as <-. split.
  - unfold sort_by_score. now rewrite !sort_values_perm.
  - apply sort_by_score_sorted.
Qed.

Lemma team_roles_length : List.length team_roles = 11.
Proof. reflexivity. Qed.

Lemma setcolumn_short {A : Type} (rows : list A) :
  List.length rows <> 11 ->
  setcolumn rows team_roles = Raise (ValueError 11 (List.length rows)).
Proof.
  intros H. unfold setcolumn. rewrite team_roles_length.
  destruct (Nat.eqb_spec 11 (List.length rows)) as [E | E];
    [congruence | reflexivity].
Qed.

Lemma setcolumn_Ok {A B : Type} (rows : list A) (vals : list B)
  (table : list (A * B)) :
  setcolumn rows vals = Ok table ->
  List.length vals = List.length rows /\ map fst table = rows /\
  map snd table = vals.
Proof.
  unfold setcolumn. destruct (Nat.eqb_spec (List.length vals) (List.length rows))
    as [E | E]; [| discriminate].
  intros H. injection H as <-. split; [exact E |].
  clear - E. revert vals E. induction rows as [|a rows IH];
    intros [|v vals] E; simpl in *; try discriminate; [auto |].
  injection E as E. destruct (IH vals E) as [-> ->]. auto.
Qed.

(** The optimize branch ends in an exception on every table with fewer than
    11 rows. *)
Lemma optimize_xi_raises_below_11 (filtered : list Player) :
  List.length filtered < 11 -> exists e, optimize_xi filtered = Raise e.
Proof.
  intros Hlt. unfold optimize_xi.
  destruct (auto_roster_cases filtered) as [[_ [E _]] | [rows [Ha [E _]]]];
    rewrite E; unfold bind.
  - eauto.
  - apply assemble_length_le in Ha. destruct Ha as [_ Ha].
    rewrite setcolumn_short; [eauto |].
    unfold sort_by_score. rewrite !sort_values_length. lia.
Qed.

(** C2.  The claim promises designations capped at the roster size for
    rosters of fewer than 11 players.  The script assigns a list of exactly
    11 designations (Captain, Vice Captain, then nine times Player) as a
    column: on the two-player roster of a WK and a batter the assignment
    raises ValueError (11 values for 2 rows), so the page stops after the
    count line and nobody is made Captain or Vice Captain. *)
Theorem designations_raise_on_short_roster :
  team_roles =
    ["Captain"; "Vice Captain"; "Player"; "Player"; "Player"; "Player";
     "Player"; "Player"; "Player"; "Player"; "Player"]%string /\
  auto_roster [sample "k" "WK" 50%Q; sample "b" "Batter" 40%Q] =
    Ok [sample "k" "WK" 50%Q; sample "b" "Batter" 40%Q] /\
  optimize_xi [sample "k" "WK" 50%Q; sample "b" "Batter" 40%Q] =
    Raise (ValueError 11 2) /\
  tab_summary [sample "k" "WK" 50%Q; sample "b" "Batter" 40%Q] [] [] [] [] true =
    ([st_write 0], Some (ValueError 11 2)).
Proof. repeat split. Qed.

(** C3.  The claim promises an average over the actual roster size, equal to
    the player's score for a roster of one.  The script divides the total by
    the constant 11: for the one-player roster the summary would be 50 and
    50/11, not 50; and on that roster the run does not even reach the
    summary, because the designation column raises ValueError first. *)
Theorem auto_average_divides_by_eleven :
  (forall rows : list Player,
      snd (auto_summary rows) =
      (sum (map Predicted_Fantasy_Score rows) / 11)%Q) /\
  auto_roster [sample "k" "WK" 50%Q] = Ok [sample "k" "WK" 50%Q] /\
  auto_summary [sample "k" "WK" 50%Q] = (50%Q, (50 # 11)%Q) /\
  ~ (snd (auto_summary [sample "k" "WK" 50%Q]) ==
     Predicted_Fantasy_Score (sample "k" "WK" 50%Q))%Q /\
  optimize_xi [sample "k" "WK" 50%Q] = Raise (ValueError 11 1) /\
  tab_summary [sample "k" "WK" 50%Q] [] [] [] [] true =
    ([st_write 0], Some (ValueError 11 1)).
Proof.
  split; [reflexivity |]. repeat split.
  intros H. vm_compute in H. discriminate H.
Qed.

(** ** The two sorts of the optimize branch *)

Lemma distinct_scores_perm (l l' : list Player) :
  Permutation l l' -> distinct_scores l -> distinct_scores l'.
Proof.
  unfold distinct_scores. intros Hp. induction Hp as [| x l l' Hp IH | x y l | l l' l'' _ IH1 _ IH2].
  - auto.
  - intros H. inversion H as [|? ? Hx Hl]; subst. constructor.
    + eapply Permutation_Forall; eassumption.
    + now apply IH.
  - intros H. inversion H as [|? ? Hy Hxl]; subst.
    inversion Hxl as [|? ? Hx Hl]; subst.
    inversion Hy as [|? ? Hyx Hyl]; subst.
    constructor; [constructor |].
    + intros E. apply Hyx. now symmetry.
    + exact Hx.
    + now constructor.
  - auto.
Qed.

(** A table without ties has one non-ascending order only. *)
Lemma sorted_by_score_unique (l1 l2 : list Player) :
  StronglySorted score_ge l1 -> StronglySorted score_ge l2 ->
  Permutation l1 l2 -> distinct_scores l1 -> l1 = l2.
Proof.
  revert l2. induction l1 as [|a l1 IH]; intros l2 Hs1 Hs2 Hp Hd.
  - apply Permutation_nil in Hp. now subst.
  - destruct l2 as [|b l2].
    + apply Permutation_sym, Permutation_nil in Hp. discriminate.
    + inversion Hs1 as [|? ? Hs1' Ha]; subst.
      inversion Hs2 as [|? ? Hs2' Hb]; subst.
      inversion Hd as [|? ? Hda Hd']; subst.
      assert (Eab : a = b).
      { assert (Hin_a : In a (b :: l2))
          by (eapply Permutation_in; [exact Hp | now left]).
        assert (Hin_b : In b (a :: l1))
          by (eapply Permutation_in;
              [apply Permutation_sym; exact Hp | now left]).
        destruct Hin_a as [E | Hin_a]; [now symmetry |].
        destruct Hin_b as [E | Hin_b]; [assumption |].
        exfalso.
        rewrite Forall_forall in Ha, Hb, Hda.
        apply (Hda b Hin_b). apply Qle_antisym.
        - apply (Hb a Hin_a).
        - apply (Ha b Hin_b). }
      subst b. f_equal. apply IH; auto.
      now apply Permutation_cons_inv in Hp.
Qed.

(** The assembled roster of [squad11] has 11 rows, two of them (p5 and p6)
    with equal scores, and the final orders with and without the role sort
    differ. *)
Lemma role_sort_observable_with_tie :
  auto_roster squad11 <> auto_roster_score_only squad11.
Proof.
  intros H. vm_compute in H. discriminate H.
Qed.

(** C6, as the script has it.  Whenever no two players of the assembled
    roster have equal predicted scores, the pipeline with the role sort and
    the pipeline without it end in the same roster in the same order.  That
    order is the only non-ascending arrangement of the assembled rows, so
    the result does not depend on how a sort orders rows with equal keys. *)
Theorem role_sort_unobservable_without_ties (filtered rows : list Player) :
  assemble filtered = Ok (Frame rows) ->
  distinct_scores rows ->
  exists final,
    auto_roster filtered = Ok final /\
    auto_roster_score_only filtered = Ok final /\
    Permutation final rows /\
    StronglySorted score_ge final /\
    forall other,
      Permutation other rows -> StronglySorted score_ge other -> other = final.
Proof.
  intros Ha Hd.
  destruct (auto_roster_cases filtered) as [[_ [E _]] | [rows' [Ha' [E1 E2]]]].
  - unfold auto_roster in E. rewrite Ha in E. unfold bind in E.
    rewrite sort_roster_Frame in E. discriminate E.
  - rewrite Ha in Ha'. injection Ha' as <-.
    assert (Hperm : Permutation (sort_by_score rows) rows)
      by apply sort_values_perm.
    exists (sort_by_score rows). split; [| split; [| split; [| split]]].
    + rewrite E1. f_equal. apply sorted_by_score_unique.
      * apply sort_by_score_sorted.
      * apply sort_by_score_sorted.
      * unfold sort_by_score. now rewrite !sort_values_perm.
      * eapply distinct_scores_perm; [| exact Hd].
        apply Permutation_sym. unfold sort_by_score.
        now rewrite !sort_values_perm.
    + exact E2.
    + exact Hperm.
    + apply sort_by_score_sorted.
    + intros other Hother Hsorted. apply sorted_by_score_unique.
      * exact Hsorted.
      * apply sort_by_score_sorted.
      * rewrite Hother. now apply Permutation_sym.
      * eapply distinct_scores_perm; [| exact Hd].
        now apply Permutation_sym.
Qed.

Lemma role_sort_unobservable_without_ties_witness :
  exists final,
    auto_roster squad12 = Ok final /\
    auto_roster_score_only squad12 = Ok final /\
    Permutation final (picks squad12 ++ added squad12 (picks squad12)) /\
    StronglySorted score_ge final /\
    forall other,
      Permutation other (picks squad12 ++ added squad12 (picks squad12)) ->
      StronglySorted score_ge other -> other = final.
Proof.
  apply (role_sort_unobservable_without_ties squad12
           (picks squad12 ++ added squad12 (picks squad12))).
  - vm_compute. reflexivity.
  - vm_compute. repeat constructor; intros E; vm_compute in E; discriminate E.
Defined.

(** C8.  The roster table that the optimize branch shows is in
    non-ascending order of predicted score. *)
Theorem auto_team_sorted_by_score (filtered : list Player)
  (cw cb ca co : list string) (team : list (Player * string)) :
  In (st_team team) (fst (tab_summary filtered cw cb ca co true)) ->
  StronglySorted score_ge (map fst team).
Proof.
  unfold tab_summary, restrict.
  set (selection := user_selection cw cb ca co).
  destruct (optimize_xi filtered) as [[team' [total_score avg]] | e] eqn:E.
  - intros Hin.
    assert (Ht : team = team').
    { destruct (11 <? List.length selection); simpl in Hin;
        intuition (try discriminate; congruence). }
    subst team'. unfold optimize_xi in E.
    destruct (auto_roster_cases filtered)
      as [[_ [Er _]] | [rows [Ha [Er _]]]];
      rewrite Er in E; unfold bind in E; [discriminate E |].
    destruct (setcolumn _ team_roles) as [table | e] eqn:Es; [| discriminate E].
    injection E as <- _ _.
    apply setcolumn_Ok in Es. destruct Es as [_ [-> _]].
    apply sort_by_score_sorted.
  - intros Hin. exfalso.
    destruct (11 <? List.length selection); simpl in Hin;
      intuition discriminate.
Qed.

Lemma auto_team_sorted_by_score_witness :
  In (st_team (match optimize_xi squad11 with
               | Ok (team, _) => team
               | Raise _ => []
               end))
     (fst (tab_summary squad11 [] [] [] [] true)) /\
  StronglySorted score_ge
    (map fst (match optimize_xi squad11 with
              | Ok (team, _) => team
              | Raise _ => []
              end)).
Proof.
  split.
  - vm_compute. tauto.
  - apply (auto_team_sorted_by_score squad11 [] [] [] []).
    vm_compute. tauto.
Defined.

(** ** More on the loader, the sidebar and the filter *)

Lemma fillna_idempotent (v : Q) (r : CsvRow) : fillna v (fillna v r) = fillna v r.
Proof.
  unfold fillna; simpl. now rewrite !fillna_cell_spec.
Qed.

Lemma filter_map_commute {A B : Type} (f : A -> B) (g : B -> bool)
  (l : list A) :
  filter g (map f l) = map f (filter (fun a => g (f a)) l).
Proof.
  induction l as [|a l IH]; simpl; [reflexivity |].
  destruct (g (f a)); simpl; now rewrite IH.
Qed.

Lemma load_data_map_filter (csv : list CsvRow) :
  load_data csv =
  map (fillna 0) (filter (fun r => negb (Team_2025 r =? "-")%string) csv).
Proof.
  unfold load_data. now rewrite filter_map_commute.
Qed.

(** X1.  Loading is idempotent: cleaning an already loaded table changes
    nothing.  Loading keeps exactly as many rows as the CSV has rows whose
    team is not "-". *)
Theorem load_data_idempotent (csv : list CsvRow) :
  load_data (load_data csv) = load_data csv /\
  List.length (load_data csv) =
  List.length (filter (fun r => negb (Team_2025 r =? "-")%string) csv).
Proof.
  split.
  - rewrite (load_data_map_filter (load_data csv)).
    rewrite (load_data_map_filter csv).
    rewrite filter_map_commute, map_map. simpl.
    rewrite filter_filter.
    rewrite (filter_ext _ (fun r => negb (Team_2025 r =? "-")%string))
      by (intros r; apply andb_diag).
    apply map_ext. intros r. apply fillna_idempotent.
  - rewrite load_data_map_filter. apply length_map.
Qed.

Lemma unique_from_In (seen l : list string) (x : string) :
  In x (unique_from seen l) <-> In x l /\ ~ In x seen.
Proof.
  revert seen. induction l as [|y l IH]; intros seen; simpl.
  - tauto.
  - destruct (isin y seen) eqn:E.
    + apply isin_spec in E. rewrite IH. split.
      * tauto.
      * intros [[-> | H] Hn]; [contradiction | tauto].
    + assert (Hy : ~ In y seen)
        by (intros H; apply isin_spec in H; congruence).
      simpl. rewrite IH. simpl. split.
      * intros [-> | [H Hn]]; [tauto |]. split; [tauto |].
        intros Hs. apply Hn. now right.
      * intros [[-> | H] Hn]; [now left |].
        destruct (string_dec y x) as [-> | Hne]; [now left |].
        right. split; [assumption |]. intros [E' | Hs]; [congruence | tauto].
Qed.

Lemma unique_from_NoDup (seen l : list string) : NoDup (unique_from seen l).
Proof.
  revert seen. induction l as [|y l IH]; intros seen; simpl.
  - constructor.
  - destruct (isin y seen); [apply IH |].
    constructor; [| apply IH].
    rewrite unique_from_In. simpl. tauto.
Qed.

Lemma string_leb_false (a b : string) :
  (a <=? b)%string = false -> (b <=? a)%string = true.
Proof.
  intros H. destruct (String.leb_total a b) as [E | E]; congruence.
Qed.

Lemma teams_In {num : Type} (df : list (Row num)) (t : string) :
  In t (teams df) <-> exists r, In r df /\ Team_2025 r = t.
Proof.
  unfold teams, unique. rewrite sort_values_In, unique_from_In, in_map_iff.
  simpl. split.
  - intros [[r [E H]] _]. eauto.
  - intros [r [H E]]. split; [eauto | tauto].
Qed.

(** X2.  The team options of the sidebar, computed on the loaded table, list
    every team of the CSV except the sentinel "-", each once, in ascending
    string order. *)
Theorem teams_of_loaded_table (csv : list CsvRow) :
  NoDup (teams (load_data csv)) /\
  Sorted (fun a b => (a <=? b)%string = true) (teams (load_data csv)) /\
  (forall t : string,
      In t (teams (load_data csv)) <->
      t <> "-"%string /\ exists raw, In raw csv /\ Team_2025 raw = t).
Proof.
  split; [| split].
  - unfold teams. eapply Permutation_NoDup.
    + apply Permutation_sym, sort_values_perm.
    + apply unique_from_NoDup.
  - unfold teams.
    apply (sort_values_sorted String.leb (fun t : string => t) string_leb_false).
  - intros t. rewrite teams_In. split.
    + intros [r [Hr <-]]. apply load_data_In in Hr.
      destruct Hr as [raw [Hin [Hteam ->]]]. simpl. eauto.
    + intros [Hne [raw [Hin <-]]]. exists (fillna 0 raw). split; [| reflexivity].
      apply load_data_In. eauto.
Qed.

Lemma stricter_retained (c c' : Criteria) (p : Player) :
  stricter c c' -> retained c' p = true -> retained c p = true.
Proof.
  intros [Hm [Hs [He Ht]]]. rewrite !retained_spec.
  intros [H1 [H2 [H3 H4]]]. repeat split.
  - eapply Qle_trans; [| exact H1]. rewrite <- Zle_Qle. exact Hm.
  - eapply Qle_trans; eassumption.
  - eapply Qle_trans; eassumption.
  - destruct Ht as [Ht | [Hne Hincl]]; [now left |]. right.
    destruct H4 as [H4 | H4]; [contradiction | now apply Hincl].
Qed.

(** X3.  Tightening the sliders refines the view: when the second criteria
    are at least as strict as the first (higher or equal minimum matches and
    strike rate, lower or equal maximum economy, and a team subset inside
    the first one unless the first is empty), filtering the already
    filtered table gives the same rows as filtering the dataset directly,
    and those rows all belong to the first view. *)
Theorem filtered_df_refines (df : list Player) (c c' : Criteria) :
  stricter c c' ->
  filtered_df (filtered_df df c) c' = filtered_df df c' /\
  incl (filtered_df df c') (filtered_df df c).
Proof.
  intros Hs.
  assert (E : filtered_df (filtered_df df c) c' = filtered_df df c').
  { rewrite !filtered_df_retained, filter_filter. apply filter_ext.
    intros p. destruct (retained c' p) eqn:E'.
    - now rewrite (stricter_retained c c' p Hs E').
    - apply andb_false_r. }
  split; [exact E |].
  rewrite <- E. rewrite (filtered_df_retained (filtered_df df c) c').
  intros p Hp. now apply filter_In in Hp.
Qed.

Lemma filtered_df_refines_witness :
  filtered_df (filtered_df squad12 (mkCriteria [] 5 100 10))
    (mkCriteria ["MI"%string] 8 110 9) =
  filtered_df squad12 (mkCriteria ["MI"%string] 8 110 9) /\
  incl (filtered_df squad12 (mkCriteria ["MI"%string] 8 110 9))
       (filtered_df squad12 (mkCriteria [] 5 100 10)).
Proof.
  apply (filtered_df_refines squad12 (mkCriteria [] 5 100 10)
           (mkCriteria ["MI"%string] 8 110 9)).
  unfold stricter; simpl. repeat split.
  - lia.
  - unfold Qle; simpl; lia.
  - unfold Qle; simpl; lia.
  - now left.
Defined.

(** X4.  Filters compose without regard to order: filtering by one set of
    criteria and then by another keeps the rows that satisfy both, whichever
    comes first; applying the same criteria twice is the same as once. *)
Theorem filtered_df_commutes (df : list Player) (c1 c2 : Criteria) :
  filtered_df (filtered_df df c1) c2 = filtered_df (filtered_df df c2) c1 /\
  filtered_df (filtered_df df c1) c2 =
    filter (fun p => retained c1 p && retained c2 p) df /\
  filtered_df (filtered_df df c1) c1 = filtered_df df c1.
Proof.
  rewrite !filtered_df_retained, !filter_filter. repeat split.
  - apply filter_ext. intros p. apply andb_comm.
  - apply filter_ext. intros p. apply andb_diag.
Qed.

(** X5.  With no team selected, a dataset all of whose rows meet the three
    thresholds comes back unchanged, in the same order. *)
Theorem filtered_df_all_pass (df : list Player) (c : Criteria) :
  selected_teams c = [] ->
  Forall (fun p => (inject_Z (min_matches c) <= Total_Matches p)%Q /\
                   (min_sr c <= Strike_Rate p)%Q /\
                   (Economy_Rate p <= max_econ c)%Q) df ->
  filtered_df df c = df.
Proof.
  intros Ht Hall. rewrite filtered_df_retained.
  induction Hall as [|p df Hp Hall IH]; simpl; [reflexivity |].
  assert (E : retained c p = true) by (apply retained_spec; tauto).
  now rewrite E, IH.
Qed.

Lemma filtered_df_all_pass_witness :
  filtered_df squad12 (mkCriteria [] 5 100 10) = squad12.
Proof.
  apply (filtered_df_all_pass squad12 (mkCriteria [] 5 100 10)).
  - reflexivity.
  - repeat constructor; unfold Qle; simpl; lia.
Defined.

(** ** The table and the chart *)

Lemma StronglySorted_app_dominates {A : Type} (R : A -> A -> Prop)
  (l1 l2 : list A) (a b : A) :
  StronglySorted R (l1 ++ l2) -> In a l1 -> In b l2 -> R a b.
Proof.
  induction l1 as [|x l1 IH]; simpl; intros Hs Ha Hb; [destruct Ha |].
  inversion Hs as [|? ? Hs' Hall]; subst.
  destruct Ha as [-> | Ha].
  - rewrite Forall_forall in Hall. apply Hall. apply in_or_app. now right.
  - now apply IH.
Qed.

Lemma StronglySorted_firstn {A : Type} (R : A -> A -> Prop) (n : nat)
  (l : list A) :
  StronglySorted R l -> StronglySorted R (firstn n l).
Proof.
  revert n. induction l as [|x l IH]; intros n Hs.
  - now rewrite firstn_nil.
  - destruct n as [|n]; simpl; [constructor |].
    inversion Hs as [|? ? Hs' Hall]; subst. constructor.
    + now apply IH.
    + rewrite Forall_forall in *. intros y Hy. apply Hall.
      eapply firstn_incl. exact Hy.
Qed.

(** X6.  The table under "Filtered Players" shows exactly the rows of the
    filtered view, each as often as it occurs there, in non-ascending order
    of predicted score. *)
Theorem filtered_table_sorted (filtered : list Player) :
  Permutation (filtered_table filtered) filtered /\
  StronglySorted score_ge (filtered_table filtered) /\
  List.length (filtered_table filtered) = List.length filtered.
Proof.
  unfold filtered_table, sort_by_score. split; [| split].
  - apply sort_values_perm.
  - apply sort_by_score_sorted.
  - apply sort_values_length.
Qed.

(** X7.  The chart frame holds min(10, size of the view) rows of the view in
    non-ascending score order, and every row of the view that it leaves out
    scores no more than every row it shows. *)
Theorem top10_dominates (filtered : list Player) :
  List.length (top10 filtered) = Nat.min 10 (List.length filtered) /\
  StronglySorted score_ge (top10 filtered) /\
  exists rest,
    Permutation (top10 filtered ++ rest) filtered /\
    forall a b, In a (top10 filtered) -> In b rest -> score_ge a b.
Proof.
  unfold top10. split; [| split].
  - rewrite length_firstn. unfold sort_by_score.
    now rewrite sort_values_length.
  - apply StronglySorted_firstn, sort_by_score_sorted.
  - exists (skipn 10 (sort_by_score filtered)). split.
    + rewrite firstn_skipn. apply sort_values_perm.
    + intros a b Ha Hb.
      apply (StronglySorted_app_dominates score_ge
               (firstn 10 (sort_by_score filtered))
               (skipn 10 (sort_by_score filtered))); auto.
      rewrite firstn_skipn. apply sort_by_score_sorted.
Qed.

(** ** The tabs and the two uses of the keyword table *)

Lemma tab_bucket_unique (r : string) (b1 b2 : RoleBucket) :
  role_isin (keyword_table b1) r = true ->
  role_isin (keyword_table b2) r = true -> b1 = b2.
Proof.
  destruct (tabs_exclusive r) as [Hw [Hb Ha]].
  destruct b1, b2; cbn [keyword_table]; intros H1 H2; try reflexivity;
    exfalso;
    try (specialize (Hw H1)); try (specialize (Hw H2));
    try (specialize (Hb H1)); try (specialize (Hb H2));
    try (specialize (Ha H1)); try (specialize (Ha H2));
    intuition congruence.
Qed.

Lemma tab_sizes_step (r : string) :
  (if role_isin ["BAT WK"; "WK"] r then 1 else 0) +
  (if role_isin ["BAT"; "BATTER"] r then 1 else 0) +
  (if role_isin ["AR"; "ALL-ROUNDER"] r then 1 else 0) +
  (if role_isin ["BOWL"; "BOWLER"] r then 1 else 0) <= 1.
Proof.
  destruct (tabs_exclusive r) as [Hw [Hb Ha]].
  destruct (role_isin ["BAT WK"; "WK"] r);
    [destruct (Hw eq_refl) as [-> [-> ->]]; simpl; lia |].
  destruct (role_isin ["BAT"; "BATTER"] r);
    [destruct (Hb eq_refl) as [-> ->]; simpl; lia |].
  destruct (role_isin ["AR"; "ALL-ROUNDER"] r);
    [rewrite (Ha eq_refl); simpl; lia |].
  destruct (role_isin ["BOWL"; "BOWLER"] r); simpl; lia.
Qed.

Lemma filter_cons_length {A : Type} (f : A -> bool) (a : A) (l : list A) :
  List.length (filter f (a :: l)) =
  (if f a then 1 else 0) + List.length (filter f l).
Proof. simpl. destruct (f a); reflexivity. Qed.

(** X8.  The four tabs never share a player: a row of the view is listed in
    at most one tab, so the four tab counts add up to at most the size of
    the view. *)
Theorem tabs_are_disjoint (filtered : list Player) :
  (forall (p : Player) (b1 b2 : RoleBucket),
      In p (role_df (keyword_table b1) filtered) ->
      In p (role_df (keyword_table b2) filtered) -> b1 = b2) /\
  List.length (wk_df filtered) + List.length (bat_df filtered) +
  List.length (ar_df filtered) + List.length (bowl_df filtered)
  <= List.length filtered.
Proof.
  split.
  - intros p b1 b2 H1 H2. unfold role_df in *.
    apply filter_In in H1, H2. destruct H1 as [_ H1], H2 as [_ H2].
    eapply tab_bucket_unique; eassumption.
  - unfold wk_df, bat_df, ar_df, bowl_df, role_df.
    induction filtered as [|p filtered IH]; [simpl; lia |].
    rewrite !filter_cons_length.
    pose proof (tab_sizes_step (Role p)) as Hstep.
    cbn [List.length]. lia.
Qed.

Lemma role_isin_role_order (r : string) (b : RoleBucket) :
  role_isin (keyword_table b) r = true ->
  role_order r = Ok (bucket_priority b).
Proof.
  unfold role_isin, role_order. intros H. apply isin_spec in H.
  destruct b; simpl in H;
    repeat match goal with
           | H : _ \/ _ |- _ => destruct H as [H | H]
           | H : False |- _ => destruct H
           end; rewrite <- H; reflexivity.
Qed.

(** X9.  The two uses of the keyword table agree on tab members: a role text
    that a tab lists (exact match) gets the priority of that same bucket
    from the ordering lambda (substring match), never 99. *)
Theorem tab_member_gets_bucket_priority (r : string) (b : RoleBucket) :
  role_isin (keyword_table b) r = true ->
  role_order r = Ok (bucket_priority b) /\ role_order r <> Ok 99%Z.
Proof.
  intros H. rewrite (role_isin_role_order r b H). split; [reflexivity |].
  destruct b; discriminate.
Qed.

Lemma tab_member_gets_bucket_priority_witness :
  role_order "All-Rounder" = Ok (bucket_priority AR) /\
  role_order "All-Rounder" <> Ok 99%Z.
Proof.
  apply (tab_member_gets_bucket_priority "All-Rounder" AR). reflexivity.
Defined.

(** ** More on the manual branch *)

(** The rows that the manual branch goes on with. *)
Lemma restrict_rows (selection : list string) (udf : list Player) :
  restrict selection udf =
  (if 11 <? List.length selection
   then [st_error (List.length selection)] else [],
   if 11 <? List.length selection then firstn 11 udf else udf).
Proof. unfold restrict. now destruct (11 <? List.length selection). Qed.

Lemma tab_summary_manual (filtered : list Player) (cw cb ca co : list string) :
  tab_summary filtered cw cb ca co false =
  let selection := user_selection cw cb ca co in
  let udf := user_df filtered selection in
  let kept := if 11 <? List.length selection then firstn 11 udf else udf in
  let table := sort_values Z.leb (fun p => classify_priority (Role p)) kept in
  ((if 11 <? List.length selection
    then [st_error (List.length selection)] else [])
   ++ [st_write (List.length kept)]
   ++ (if 0 <? List.length kept
       then [st_dataframe table;
             st_info (sum (map Predicted_Fantasy_Score table))
               (sum (map Predicted_Fantasy_Score table)
                / inject_Z (Z.of_nat (List.length table)))%Q]
       else [st_warning]),
   None).
Proof.
  unfold tab_summary. rewrite restrict_rows. cbv beta iota zeta.
  set (kept := if 11 <? List.length (user_selection cw cb ca co)
               then firstn 11 (user_df filtered (user_selection cw cb ca co))
               else user_df filtered (user_selection cw cb ca co)).
  destruct (0 <? List.length kept) eqn:E.
  - rewrite manual_team_shown by (now apply Nat.ltb_lt).
    cbv beta iota zeta. now rewrite <- app_assoc.
  - unfold manual_team. rewrite E. now rewrite <- app_assoc.
Qed.

Lemma fold_left_Qplus (l : list Q) (a : Q) :
  (fold_left Qplus l a == a + fold_left Qplus l 0)%Q.
Proof.
  revert a. induction l as [|x l IH]; intros a; simpl.
  - ring.
  - rewrite (IH (a + x)%Q), (IH (0 + x)%Q). ring.
Qed.

Lemma sum_cons (x : Q) (l : list Q) : (sum (x :: l) == x + sum l)%Q.
Proof.
  unfold sum. simpl. rewrite fold_left_Qplus. ring.
Qed.

Lemma sum_perm (l l' : list Q) : Permutation l l' -> (sum l == sum l')%Q.
Proof.
  intros Hp. induction Hp as [| x l l' _ IH | x y l | l l' l'' _ IH1 _ IH2].
  - reflexivity.
  - now rewrite !sum_cons, IH.
  - rewrite !sum_cons. ring.
  - now rewrite IH1.
Qed.

(** X10.  The manual branch never ends in an exception, whatever was picked.
    Whenever it prints a total and an average, it also shows a table with at
    least one row; the total is, as a rational number, the sum of the scores
    of the selected rows of the view (cut to the first 11 on overflow), and
    the average is the printed total over the number of rows shown: the
    division is never by zero. *)
Theorem manual_branch_never_raises (filtered : list Player)
  (cw cb ca co : list string) :
  snd (tab_summary filtered cw cb ca co false) = None /\
  forall total_score avg,
    In (st_info total_score avg) (fst (tab_summary filtered cw cb ca co false)) ->
    exists table,
      In (st_dataframe table) (fst (tab_summary filtered cw cb ca co false)) /\
      0 < List.length table /\
      avg = (total_score / inject_Z (Z.of_nat (List.length table)))%Q /\
      (total_score ==
       sum (map Predicted_Fantasy_Score
              (if 11 <? List.length (user_selection cw cb ca co)
               then firstn 11 (user_df filtered (user_selection cw cb ca co))
               else user_df filtered (user_selection cw cb ca co))))%Q.
Proof.
  rewrite tab_summary_manual. cbv zeta.
  set (selection := user_selection cw cb ca co).
  set (kept := if 11 <? List.length selection
               then firstn 11 (user_df filtered selection)
               else user_df filtered selection).
  set (table := sort_values Z.leb (fun p => classify_priority (Role p)) kept).
  split; [reflexivity |]. intros total_score avg Hin. cbn [fst] in *.
  destruct (0 <? List.length kept) eqn:E.
  - exists table. apply Nat.ltb_lt in E.
    assert (Hinfo : st_info total_score avg =
                    st_info (sum (map Predicted_Fantasy_Score table))
                      (sum (map Predicted_Fantasy_Score table)
                       / inject_Z (Z.of_nat (List.length table)))%Q).
    { destruct (11 <? List.length selection); simpl in Hin;
        intuition (try discriminate; congruence). }
    injection Hinfo as -> ->. repeat split.
    + apply in_or_app. right. simpl. auto.
    + unfold table. now rewrite sort_values_length.
    + apply sum_perm, Permutation_map, sort_values_perm.
  - exfalso. destruct (11 <? List.length selection); simpl in Hin;
      intuition discriminate.
Qed.

Lemma user_df_names (filtered : list Player) (selection : list string) :
  NoDup (map player_name filtered) ->
  NoDup selection ->
  incl selection (map player_name filtered) ->
  Permutation (map player_name (user_df filtered selection)) selection.
Proof.
  intros Hnd Hsel Hincl. apply NoDup_Permutation.
  - unfold user_df. now apply NoDup_map_filter.
  - exact Hsel.
  - intros x. rewrite in_map_iff. unfold user_df. split.
    + intros [p [<- Hp]]. apply filter_In in Hp. now apply isin_spec.
    + intros Hx. pose proof (Hincl x Hx) as Hin. apply in_map_iff in Hin.
      destruct Hin as [p [<- Hp]]. exists p. split; [reflexivity |].
      apply filter_In. split; [assumption | now apply isin_spec].
Qed.

(** X11.  When the names of the view are distinct, picking names in the tabs
    selects exactly those players: the selected rows carry the picked names,
    each once, and the count line shows min(11, number of names picked), so
    a manual roster never shows more than 11 players. *)
Theorem manual_roster_matches_selection (filtered : list Player)
  (cw cb ca co : list string) :
  NoDup (map player_name filtered) ->
  update_selection (wk_df filtered) cw ->
  update_selection (bat_df filtered) cb ->
  update_selection (ar_df filtered) ca ->
  update_selection (bowl_df filtered) co ->
  Permutation
    (map player_name (user_df filtered (user_selection cw cb ca co)))
    (user_selection cw cb ca co) /\
  In (st_write (Nat.min 11 (List.length (user_selection cw cb ca co))))
     (fst (tab_summary filtered cw cb ca co false)).
Proof.
  intros Hnd Hw Hb Ha Ho.
  pose proof (user_df_names filtered (user_selection cw cb ca co) Hnd
                (user_selection_NoDup cw cb ca co)
                (user_selection_incl filtered cw cb ca co Hw Hb Ha Ho)) as Hp.
  split; [exact Hp |].
  apply Permutation_length in Hp. rewrite length_map in Hp.
  rewrite tab_summary_manual. cbv zeta. cbn [fst].
  apply in_or_app. right. left. f_equal.
  destruct (11 <? List.length (user_selection cw cb ca co)) eqn:E.
  - apply Nat.ltb_lt in E. rewrite length_firstn. lia.
  - apply Nat.ltb_ge in E. lia.
Qed.

Lemma manual_roster_matches_selection_witness :
  Permutation
    (map player_name
       (user_df squad12 (user_selection ["k1"; "k3"] ["b2"] [] ["o1"; "o3"])))
    (user_selection ["k1"; "k3"] ["b2"] [] ["o1"; "o3"]) /\
  In (st_write
        (Nat.min 11
           (List.length (user_selection ["k1"; "k3"] ["b2"] [] ["o1"; "o3"]))))
     (fst (tab_summary squad12 ["k1"; "k3"] ["b2"] [] ["o1"; "o3"] false)).
Proof.
  apply (manual_roster_matches_selection squad12
           ["k1"; "k3"] ["b2"] [] ["o1"; "o3"]).
  - repeat constructor; simpl; intuition discriminate.
  - split; [repeat constructor; simpl; intuition discriminate
           | intros x Hx; vm_compute in Hx |- *; tauto].
  - split; [repeat constructor; simpl; intuition discriminate
           | intros x Hx; vm_compute in Hx |- *; tauto].
  - split; [constructor | intros x Hx; destruct Hx].
  - split; [repeat constructor; simpl; intuition discriminate
           | intros x Hx; vm_compute in Hx |- *; tauto].
Defined.

Lemma user_df_nil (filtered : list Player) : user_df filtered [] = [].
Proof.
  unfold user_df. induction filtered as [|p filtered IH]; simpl; auto.
Qed.

(** X12.  With nothing picked in any tab and Optimize not clicked, the
    summary tab shows the count 0 and the hint to select players, on every
    view: no table, no total, no average, and no exception. *)
Theorem manual_nothing_selected (filtered : list Player) :
  tab_summary filtered [] [] [] [] false = ([st_write 0; st_warning], None).
Proof.
  rewrite tab_summary_manual. cbv zeta.
  change (user_selection [] [] [] []) with (@nil string).
  now rewrite user_df_nil.
Qed.

Lemma chosen_from_tab (filtered : list Player) (b : RoleBucket)
  (chosen : list string) (p : Player) :
  NoDup (map player_name filtered) ->
  update_selection (role_df (keyword_table b) filtered) chosen ->
  In p filtered -> In (player_name p) chosen ->
  role_isin (keyword_table b) (Role p) = true.
Proof.
  intros Hnd [_ Hincl] Hp Hname. apply Hincl in Hname.
  apply in_map_iff in Hname. destruct Hname as [q [E Hq]].
  unfold role_df in Hq. apply filter_In in Hq. destruct Hq as [Hq Hrole].
  assert (q = p) by (apply (NoDup_map_inj player_name filtered); auto).
  now subst q.
Qed.

(** X13.  When the names of the view are distinct, every row that the manual
    branch selects comes from the tab it was picked in, so its role priority
    is that of one of the four buckets: no manually selected row is ranked
    99. *)
Theorem manual_rows_are_ranked (filtered : list Player)
  (cw cb ca co : list string) (p : Player) :
  NoDup (map player_name filtered) ->
  update_selection (wk_df filtered) cw ->
  update_selection (bat_df filtered) cb ->
  update_selection (ar_df filtered) ca ->
  update_selection (bowl_df filtered) co ->
  In p (user_df filtered (user_selection cw cb ca co)) ->
  exists b : RoleBucket,
    In p (role_df (keyword_table b) filtered) /\
    role_order (Role p) = Ok (bucket_priority b).
Proof.
  intros Hnd Hw Hb Ha Ho Hp. unfold user_df in Hp.
  apply filter_In in Hp. destruct Hp as [Hp Hname].
  apply isin_spec in Hname. unfold user_selection in Hname.
  apply nodup_In in Hname. rewrite !in_app_iff in Hname.
  assert (Hb' : exists b, role_isin (keyword_table b) (Role p) = true).
  { destruct Hname as [H | [H | [H | H]]].
    - exists WK. eapply chosen_from_tab; eauto.
    - exists BAT. eapply chosen_from_tab; eauto.
    - exists AR. eapply chosen_from_tab; eauto.
    - exists BOWL. eapply chosen_from_tab; eauto. }
  destruct Hb' as [b Hrole]. exists b. split.
  - unfold role_df. apply filter_In. auto.
  - now apply role_isin_role_order.
Qed.

Lemma manual_rows_are_ranked_witness :
  exists b : RoleBucket,
    In (sample "b2" "BAT" 67%Q) (role_df (keyword_table b) squad12) /\
    role_order (Role (sample "b2" "BAT" 67%Q)) = Ok (bucket_priority b).
Proof.
  apply (manual_rows_are_ranked squad12 ["k1"; "k3"] ["b2"] [] ["o1"; "o3"]).
  - repeat constructor; simpl; intuition discriminate.
  - split; [repeat constructor; simpl; intuition discriminate
           | intros x Hx; vm_compute in Hx |- *; tauto].
  - split; [repeat constructor; simpl; intuition discriminate
           | intros x Hx; vm_compute in Hx |- *; tauto].
  - split; [constructor | intros x Hx; destruct Hx].
  - split; [repeat constructor; simpl; intuition discriminate
           | intros x Hx; vm_compute in Hx |- *; tauto].
  - vm_compute. tauto.
Defined.

(** ** More on the optimize branch *)

Lemma auto_roster_length (filtered rows final : list Player) :
  assemble filtered = Ok (Frame rows) ->
  auto_roster filtered = Ok final ->
  List.length final = List.length rows.
Proof.
  intros Ha Hr. apply Permutation_length.
  now apply (auto_roster_perm filtered rows final).
Qed.

(** X14.  The three outcomes of Optimize.  If no tab has a row, the run
    stops with KeyError on the column player_name.  Otherwise a roster is
    assembled; if it has fewer than 11 rows the run stops with ValueError
    when the 11 designations are assigned; if it has 11 rows, the branch
    shows those rows with the designations Captain, Vice Captain and nine
    times Player in that order, the sum of their scores as total, and the
    total over 11 as average, which is then the average over the roster. *)
Theorem optimize_xi_outcomes (filtered : list Player) :
  (picks filtered = [] /\
   optimize_xi filtered = Raise (KeyError "player_name")) \/
  (exists rows,
      assemble filtered = Ok (Frame rows) /\
      List.length rows < 11 /\
      optimize_xi filtered = Raise (ValueError 11 (List.length rows))) \/
  (exists rows team total_score,
      assemble filtered = Ok (Frame rows) /\
      List.length rows = 11 /\
      optimize_xi filtered =
        Ok (team,
            (total_score,
             (total_score / inject_Z (Z.of_nat (List.length team)))%Q)) /\
      List.length team = 11 /\
      map snd team = team_roles /\
      Permutation (map fst team) rows /\
      total_score = sum (map Predicted_Fantasy_Score (map fst team))).
Proof.
  destruct (auto_roster_cases filtered) as [[Hp [E _]] | [rows [Ha [E _]]]].
  - left. split; [exact Hp |]. unfold optimize_xi. now rewrite E.
  - right. pose proof (assemble_length_le filtered rows Ha) as [Hle _].
    set (final := sort_by_score
                    (sort_values Z.leb (fun p => classify_priority (Role p))
                       rows)) in *.
    assert (Hlen : List.length final = List.length rows)
      by (now apply (auto_roster_length filtered rows final)).
    destruct (Nat.eq_dec (List.length rows) 11) as [E11 | Hne].
    + right.
      destruct (setcolumn final team_roles) as [team | e] eqn:Es.
      * pose proof (setcolumn_Ok _ _ _ Es) as [_ [Hfst Hsnd]].
        assert (Hteam : List.length team = 11).
        { rewrite <- (length_map fst team), Hfst. congruence. }
        exists rows, team, (sum (map Predicted_Fantasy_Score final)).
        split; [exact Ha |]. split; [exact E11 |]. split.
        { unfold optimize_xi. rewrite E. unfold bind. rewrite Es.
          rewrite Hteam. reflexivity. }
        split; [exact Hteam |]. split; [exact Hsnd |]. split.
        { rewrite Hfst. now apply (auto_roster_perm filtered rows final). }
        now rewrite Hfst.
      * exfalso. unfold setcolumn in Es. rewrite team_roles_length in Es.
        rewrite Hlen, E11 in Es. discriminate Es.
    + left. exists rows. split; [exact Ha |]. split; [lia |].
      unfold optimize_xi. rewrite E. unfold bind.
      rewrite setcolumn_short by congruence. now rewrite Hlen.
Qed.

Lemma best_nonempty (filtered : list Player) (keywords : list string)
  (q : Player) :
  In q (role_df keywords filtered) -> best filtered keywords <> [].
Proof.
  intros Hq E. apply (f_equal (@List.length _)) in E.
  unfold best in E. rewrite length_firstn in E. unfold sort_by_score in E.
  rewrite sort_values_length in E. simpl in E.
  destruct (role_df keywords filtered); [destruct Hq | simpl in E; lia].
Qed.

Lemma picks_nonempty_iff (filtered : list Player) :
  picks filtered <> [] <->
  exists p, In p filtered /\ in_some_tab (Role p).
Proof.
  split.
  - intros Hne. destruct (picks filtered) as [|p rest] eqn:E; [contradiction |].
    assert (Hin : In p (picks filtered)) by (rewrite E; now left).
    unfold picks in Hin. apply in_flat_map in Hin.
    destruct Hin as [entry [He Hp]]. apply best_In in Hp.
    exists p. split; [tauto |]. exists entry. tauto.
  - intros [p [Hp [entry [He Hrole]]]] E.
    assert (Hq : In p (role_df (snd entry) filtered))
      by (unfold role_df; apply filter_In; auto).
    pose proof (best_nonempty filtered (snd entry) p Hq) as Hb.
    destruct (best filtered (snd entry)) as [|x rest] eqn:Eb; [contradiction |].
    assert (Hin : In x (picks filtered)).
    { unfold picks. apply in_flat_map. exists entry. split; [exact He |].
      rewrite Eb. now left. }
    rewrite E in Hin. destruct Hin.
Qed.

(** X15.  When the names of the view are distinct, Optimize produces a team
    exactly when the view has at least 11 players and at least one of them
    has a role text that some tab lists. *)
Theorem optimize_xi_succeeds_iff (filtered : list Player) :
  NoDup (map player_name filtered) ->
  (exists out, optimize_xi filtered = Ok out) <->
  11 <= List.length filtered /\
  exists p, In p filtered /\ in_some_tab (Role p).
Proof.
  intros Hnd. rewrite <- picks_nonempty_iff. split.
  - intros [out Hout]. unfold optimize_xi in Hout.
    destruct (auto_roster_cases filtered) as [[_ [E _]] | [rows [Ha [E _]]]];
      rewrite E in Hout; unfold bind in Hout; [discriminate Hout |].
    destruct (setcolumn _ team_roles) as [team | e] eqn:Es;
      [| discriminate Hout].
    apply setcolumn_Ok in Es. destruct Es as [Hlen _].
    rewrite team_roles_length in Hlen. unfold sort_by_score in Hlen.
    rewrite !sort_values_length in Hlen.
    pose proof (assemble_length_le filtered rows Ha) as [_ Hle].
    split; [lia |]. now apply assemble_Ok in Ha.
  - intros [Hlen Hne].
    destruct (assemble_length filtered Hnd Hne) as [rows [Ha Hrows]].
    unfold optimize_xi.
    destruct (auto_roster_cases filtered) as [[Hp _] | [rows' [Ha' [E _]]]];
      [contradiction |].
    rewrite Ha in Ha'. injection Ha' as <-. rewrite E. unfold bind.
    unfold setcolumn. rewrite team_roles_length. unfold sort_by_score.
    rewrite !sort_values_length.
    replace (List.length rows) with 11 by lia. simpl. eauto.
Qed.

Lemma optimize_xi_succeeds_iff_witness :
  (exists out, optimize_xi squad11 = Ok out) <->
  11 <= List.length squad11 /\
  exists p, In p squad11 /\ in_some_tab (Role p).
Proof.
  apply (optimize_xi_succeeds_iff squad11).
  repeat constructor; simpl; intuition discriminate.
Defined.


Lemma added_In (filtered taken : list Player) (p : Player) :
  In p (added filtered taken) ->
  In p filtered /\ ~ In (player_name p) (map player_name taken).
Proof.
  unfold added. intros H. apply firstn_incl in H.
  apply sort_values_In in H. apply filter_In in H. destruct H as [Hp Hn].
  split; [exact Hp |]. intros Hin. apply isin_spec in Hin.
  rewrite Hin in Hn. discriminate Hn.
Qed.




(** X17.  Every tab that has a row is represented in the assembled roster by
    a player of that tab who scores at least as much as every player of the
    tab. *)
Theorem roster_has_best_of_each_tab (filtered rows : list Player)
  (entry : string * list string) (q : Player) :
  assemble filtered = Ok (Frame rows) ->
  In entry role_map ->
  In q (role_df (snd entry) filtered) ->
  exists p,
    In p rows /\ In p (role_df (snd entry) filtered) /\ score_ge p q.
Proof.
  intros Ha He Hq. apply assemble_Ok in Ha. destruct Ha as [_ Ha].
  injection Ha as ->.
  pose proof (sort_by_score_sorted (role_df (snd entry) filtered)) as Hs.
  assert (Hq' : In q (sort_by_score (role_df (snd entry) filtered)))
    by (now apply sort_values_In).
  destruct (sort_by_score (role_df (snd entry) filtered))
    as [|p sorted] eqn:E; [destruct Hq' |].
  assert (Hbest : best filtered (snd entry) = [p])
    by (unfold best; now rewrite E).
  assert (Hp : In p (sort_by_score (role_df (snd entry) filtered)))
    by (rewrite E; now left).
  apply sort_values_In in Hp.
  exists p. split; [| split].
  - apply in_or_app. left. unfold picks. apply in_flat_map.
    exists entry. split; [exact He |]. rewrite Hbest. now left.
  - exact Hp.
  - inversion Hs as [|? ? _ Hall]; subst. destruct Hq' as [<- | Hq'].
    + unfold score_ge. apply Qle_refl.
    + rewrite Forall_forall in Hall. now apply Hall.
Qed.

Lemma roster_has_best_of_each_tab_witness :
  exists p,
    In p (picks squad12 ++ added squad12 (picks squad12)) /\
    In p (role_df (snd ("BAT"%string, ["BAT"; "BATTER"]%string)) squad12) /\
    score_ge p (sample "b3" "bat" 28%Q).
Proof.
  apply (roster_has_best_of_each_tab squad12
           (picks squad12 ++ added squad12 (picks squad12))
           ("BAT"%string, ["BAT"; "BATTER"]%string)).
  - vm_compute. reflexivity.
  - simpl. tauto.
  - vm_compute. tauto.
Defined.

Lemma left_out_in_rest (filtered : list Player) (q : Player) :
  In q filtered ->
  ~ In (player_name q) (map player_name (picks filtered)) ->
  ~ In (player_name q)
       (map player_name (added filtered (picks filtered))) ->
  In q (skipn (11 - List.length (picks filtered))
          (sort_by_score
             (filter (fun p => negb (isin (player_name p)
                                       (map player_name (picks filtered))))
                     filtered))).
Proof.
  intros Hq Hn1 Hn2.
  set (S := sort_by_score
              (filter (fun p => negb (isin (player_name p)
                                        (map player_name (picks filtered))))
                      filtered)) in *.
  assert (HS : In q S).
  { unfold S. apply sort_values_In. apply filter_In. split; [exact Hq |].
    apply negb_true_iff. destruct (isin _ _) eqn:E; [| reflexivity].
    apply isin_spec in E. contradiction. }
  rewrite <- (firstn_skipn (11 - List.length (picks filtered)) S) in HS.
  apply in_app_or in HS. destruct HS as [HS | HS]; [| exact HS].
  exfalso. apply Hn2. apply in_map. exact HS.
Qed.

(** X18.  The top-up is greedy by score: a player of the view whose name is
    not in the assembled roster scores no more than every player that the
    top-up added. *)
Theorem top_up_takes_highest_scores (filtered rows : list Player)
  (q a : Player) :
  assemble filtered = Ok (Frame rows) ->
  In q filtered ->
  ~ In (player_name q) (map player_name rows) ->
  In a (added filtered (picks filtered)) ->
  rows = picks filtered ++ added filtered (picks filtered) /\ score_ge a q.
Proof.
  intros Ha Hq Hn Hin. apply assemble_Ok in Ha. destruct Ha as [_ Ha].
  injection Ha as ->. split; [reflexivity |].
  rewrite map_app, in_app_iff in Hn.
  assert (Hrest := left_out_in_rest filtered q Hq
                     (fun H => Hn (or_introl H)) (fun H => Hn (or_intror H))).
  unfold added in Hin.
  eapply (StronglySorted_app_dominates score_ge); [| exact Hin | exact Hrest].
  rewrite firstn_skipn. apply sort_by_score_sorted.
Qed.

(** Thirteen players: the eleven of [squad11] and two that score less than
    every player the top-up adds. *)
Lemma top_up_takes_highest_scores_witness :
  assemble (squad11 ++ [sample "q1" "AR" 3%Q; sample "q2" "Coach" 1%Q]) =
    Ok (Frame (picks (squad11 ++ [sample "q1" "AR" 3%Q; sample "q2" "Coach" 1%Q])
               ++ added (squad11 ++ [sample "q1" "AR" 3%Q; sample "q2" "Coach" 1%Q])
                    (picks (squad11 ++ [sample "q1" "AR" 3%Q;
                                        sample "q2" "Coach" 1%Q])))) /\
  score_ge (sample "p11" "WK" 5%Q) (sample "q2" "Coach" 1%Q).
Proof.
  split; [vm_compute; reflexivity |].
  apply (top_up_takes_highest_scores
           (squad11 ++ [sample "q1" "AR" 3%Q; sample "q2" "Coach" 1%Q])
           (picks (squad11 ++ [sample "q1" "AR" 3%Q; sample "q2" "Coach" 1%Q])
            ++ added (squad11 ++ [sample "q1" "AR" 3%Q; sample "q2" "Coach" 1%Q])
                 (picks (squad11 ++ [sample "q1" "AR" 3%Q;
                                     sample "q2" "Coach" 1%Q])))
           (sample "q2" "Coach" 1%Q) (sample "p11" "WK" 5%Q)).
  - vm_compute. reflexivity.
  - vm_compute. tauto.
  - vm_compute. intuition discriminate.
  - vm_compute. tauto.
Defined.

Lemma roster_incl (filtered : list Player) (p : Player) :
  In p (picks filtered ++ added filtered (picks filtered)) -> In p filtered.
Proof.
  intros Hp. apply in_app_or in Hp. destruct Hp as [Hp | Hp].
  - now apply picks_In.
  - now apply added_In in Hp.
Qed.

Lemma sorted_head_dominates (c q : Player) (rest : list Player) :
  StronglySorted score_ge (c :: rest) -> In q (c :: rest) -> score_ge c q.
Proof.
  intros Hs Hq. inversion Hs as [|? ? _ Hall]; subst.
  destruct Hq as [<- | Hq].
  - unfold score_ge. apply Qle_refl.
  - rewrite Forall_forall in Hall. now apply Hall.
Qed.

(** X19.  When the names of the view are distinct, the first row of the
    final automatic roster, the one designated Captain, has the highest
    predicted score of the whole view. *)
Theorem captain_has_highest_score (filtered rest : list Player)
  (c q : Player) :
  NoDup (map player_name filtered) ->
  auto_roster filtered = Ok (c :: rest) ->
  In q filtered ->
  score_ge c q.
Proof.
  intros Hnd Hr Hq.
  destruct (auto_roster_cases filtered) as [[_ [E _]] | [rows [Ha [E _]]]];
    [rewrite E in Hr; discriminate Hr |].
  destruct (auto_roster_perm filtered rows (c :: rest) Ha Hr) as [Hperm Hs].
  pose proof (assemble_Ok filtered (Frame rows) Ha) as [_ Hrows].
  injection Hrows as Hrows.
  assert (Hrow : forall a, In a rows -> score_ge c a).
  { intros a Hin. apply (sorted_head_dominates c a rest Hs).
    eapply Permutation_in; [apply Permutation_sym; exact Hperm | exact Hin]. }
  destruct (isin (player_name q) (map player_name (picks filtered))) eqn:Ep.
  - apply isin_spec in Ep. apply in_map_iff in Ep. destruct Ep as [p [En Hp]].
    assert (p = q).
    { apply (NoDup_map_inj player_name filtered); auto. now apply picks_In. }
    subst p. apply Hrow. rewrite Hrows. apply in_or_app. now left.
  - assert (Hn1 : ~ In (player_name q) (map player_name (picks filtered))).
    { intros H. apply isin_spec in H. congruence. }
    set (S := sort_by_score
                (filter (fun p => negb (isin (player_name p)
                                          (map player_name (picks filtered))))
                        filtered)).
    assert (HS : In q S).
    { unfold S. apply sort_values_In. apply filter_In. split; [exact Hq |].
      now rewrite Ep. }
    pose proof (picks_length filtered) as Hk.
    assert (Hsorted : StronglySorted score_ge S) by apply sort_by_score_sorted.
    destruct S as [|s S'] eqn:ES; [destruct HS |].
    assert (Hs_added : In s (added filtered (picks filtered))).
    { unfold added. fold (sort_by_score
                (filter (fun p => negb (isin (player_name p)
                                          (map player_name (picks filtered))))
                        filtered)).
      change (sort_by_score
                (filter (fun p => negb (isin (player_name p)
                                          (map player_name (picks filtered))))
                        filtered)) with S in ES.
      unfold S in ES. rewrite ES.
      destruct (11 - List.length (picks filtered)) as [|n] eqn:En; [lia |].
      simpl. now left. }
    unfold score_ge. eapply Qle_trans.
    + apply (sorted_head_dominates s q S' Hsorted HS).
    + apply Hrow. rewrite Hrows. apply in_or_app. now right.
Qed.

Lemma captain_has_highest_score_witness :
  score_ge (sample "p1" "WK" 90%Q) (sample "p7" "BAT" 40%Q).
Proof.
  apply (captain_has_highest_score squad11
           (match auto_roster squad11 with
            | Ok (_ :: rest) => rest
            | _ => []
            end)).
  - repeat constructor; simpl; intuition discriminate.
  - vm_compute. reflexivity.
  - vm_compute. tauto.
Defined.

(** X20.  A roster of fewer than 11 rows leaves nobody out: every player of
    the view has their name in the assembled roster. *)
Theorem short_roster_takes_everyone (filtered rows : list Player) (q : Player) :
  assemble filtered = Ok (Frame rows) ->
  List.length rows < 11 ->
  In q filtered ->
  In (player_name q) (map player_name rows).
Proof.
  intros Ha Hlt Hq. apply assemble_Ok in Ha. destruct Ha as [_ Ha].
  injection Ha as ->. rewrite map_app, in_app_iff.
  destruct (isin (player_name q) (map player_name (picks filtered))) eqn:Ep.
  - left. now apply isin_spec.
  - right. apply in_map. unfold added.
    rewrite length_app in Hlt. unfold added in Hlt.
    rewrite length_firstn in Hlt.
    rewrite firstn_all2 by lia.
    apply sort_values_In. apply filter_In. split; [exact Hq |].
    now rewrite Ep.
Qed.

Lemma short_roster_takes_everyone_witness :
  In (player_name (sample "b" "Coach" 40%Q))
     (map player_name [sample "k" "WK" 50%Q; sample "b" "Coach" 40%Q]).
Proof.
  apply (short_roster_takes_everyone
           [sample "b" "Coach" 40%Q; sample "k" "WK" 50%Q]).
  - vm_compute. reflexivity.
  - simpl. lia.
  - simpl. tauto.
Defined.

(** X21.  When the names of the view are distinct and some player has a
    role text that a tab lists, assembly succeeds and the roster has exactly
    min(11, size of the view) rows. *)
Theorem roster_size_with_tab_row (filtered : list Player) (p : Player) :
  NoDup (map player_name filtered) ->
  In p filtered ->
  in_some_tab (Role p) ->
  exists rows,
    assemble filtered = Ok (Frame rows) /\
    List.length rows = Nat.min 11 (List.length filtered).
Proof.
  intros Hnd Hp Htab. apply assemble_length; [exact Hnd |].
  apply picks_nonempty_iff. eauto.
Qed.

Lemma roster_size_with_tab_row_witness :
  exists rows,
    assemble squad12 = Ok (Frame rows) /\
    List.length rows = Nat.min 11 (List.length squad12).
Proof.
  apply (roster_size_with_tab_row squad12 (sample "k1" "WK" 61%Q)).
  - repeat constructor; simpl; intuition discriminate.
  - simpl. tauto.
  - exists ("WK"%string, ["BAT WK"; "WK"]%string). split; [simpl; tauto |].
    reflexivity.
Defined.

(** X22.  On a view of fewer than 11 rows Optimize always ends in an
    exception, whatever the names and roles. *)
Theorem optimize_needs_eleven_rows (filtered : list Player) :
  List.length filtered < 11 ->
  (exists e, optimize_xi filtered = Raise e) /\
  forall cw cb ca co,
    exists e, snd (tab_summary filtered cw cb ca co true) = Some e.
Proof.
  intros Hlt. destruct (optimize_xi_raises_below_11 filtered Hlt) as [e He].
  split; [eauto |]. intros cw cb ca co. exists e.
  unfold tab_summary. rewrite restrict_rows. cbv beta iota zeta.
  now rewrite He.
Qed.

Lemma optimize_needs_eleven_rows_witness :
  (exists e, optimize_xi (firstn 10 squad12) = Raise e) /\
  forall cw cb ca co,
    exists e, snd (tab_summary (firstn 10 squad12) cw cb ca co true) = Some e.
Proof.
  apply (optimize_needs_eleven_rows (firstn 10 squad12)). simpl. lia.
Defined.

(** ** Letter case and the size of a selection *)

Lemma upper_ascii_idempotent (c : ascii) :
  upper_ascii (upper_ascii c) = upper_ascii c.
Proof. destruct c as [[] [] [] [] [] [] [] []]; reflexivity. Qed.

Lemma upper_idempotent (s : string) : upper (upper s) = upper s.
Proof.
  induction s as [|c s IH]; simpl; [reflexivity |].
  now rewrite upper_ascii_idempotent, IH.
Qed.

(** X23.  Matching ignores letter case: upper-casing a role text beforehand
    changes neither the tabs that list it nor the priority the ordering
    lambda gives it. *)
Theorem role_matching_ignores_case (r : string) :
  (forall keywords, role_isin keywords (upper r) = role_isin keywords r) /\
  role_order (upper r) = role_order r.
Proof.
  unfold role_isin, role_order. now rewrite upper_idempotent.
Qed.

Lemma picked_in_two_tabs (filtered : list Player) (b1 b2 : RoleBucket)
  (c1 c2 : list string) (x : string) :
  NoDup (map player_name filtered) ->
  update_selection (role_df (keyword_table b1) filtered) c1 ->
  update_selection (role_df (keyword_table b2) filtered) c2 ->
  In x c1 -> In x c2 -> b1 = b2.
Proof.
  intros Hnd [_ H1] [_ H2] Hx1 Hx2.
  apply H1 in Hx1. apply H2 in Hx2.
  apply in_map_iff in Hx1, Hx2.
  destruct Hx1 as [p [Ep Hp]], Hx2 as [q [Eq Hq]].
  unfold role_df in Hp, Hq. apply filter_In in Hp, Hq.
  assert (p = q) by (apply (NoDup_map_inj player_name filtered);
                     try tauto; congruence).
  subst q. eapply tab_bucket_unique; [apply Hp | apply Hq].
Qed.

(** X24.  When the names of the view are distinct, no name can be picked in
    two tabs, so the number of selected players is the sum of the four tab
    selections. *)
Theorem selection_size_is_sum (filtered : list Player)
  (cw cb ca co : list string) :
  NoDup (map player_name filtered) ->
  update_selection (wk_df filtered) cw ->
  update_selection (bat_df filtered) cb ->
  update_selection (ar_df filtered) ca ->
  update_selection (bowl_df filtered) co ->
  List.length (user_selection cw cb ca co) =
  List.length cw + List.length cb + List.length ca + List.length co.
Proof.
  intros Hnd Hw Hb Ha Ho. unfold user_selection.
  rewrite nodup_fixed_point; [rewrite !length_app; lia |].
  assert (Dwb := picked_in_two_tabs filtered WK BAT cw cb).
  assert (Dwa := picked_in_two_tabs filtered WK AR cw ca).
  assert (Dwo := picked_in_two_tabs filtered WK BOWL cw co).
  assert (Dba := picked_in_two_tabs filtered BAT AR cb ca).
  assert (Dbo := picked_in_two_tabs filtered BAT BOWL cb co).
  assert (Dao := picked_in_two_tabs filtered AR BOWL ca co).
  repeat apply NoDup_app;
    try (apply Hw); try (apply Hb); try (apply Ha); try (apply Ho);
    intros x Hx; rewrite ?in_app_iff; intros Hy;
    repeat match goal with
           | H : _ \/ _ |- _ => destruct H as [H | H]
           end;
    first [ specialize (Dwb x Hnd Hw Hb Hx Hy); discriminate Dwb
          | specialize (Dwa x Hnd Hw Ha Hx Hy); discriminate Dwa
          | specialize (Dwo x Hnd Hw Ho Hx Hy); discriminate Dwo
          | specialize (Dba x Hnd Hb Ha Hx Hy); discriminate Dba
          | specialize (Dbo x Hnd Hb Ho Hx Hy); discriminate Dbo
          | specialize (Dao x Hnd Ha Ho Hx Hy); discriminate Dao ].
Qed.

Lemma selection_size_is_sum_witness :
  List.length (user_selection ["k1"; "k3"] ["b2"] [] ["o1"; "o3"]) =
  List.length ["k1"; "k3"]%string + List.length ["b2"]%string +
  List.length (@nil string) + List.length ["o1"; "o3"]%string.
Proof.
  apply (selection_size_is_sum squad12 ["k1"; "k3"] ["b2"] [] ["o1"; "o3"]).
  - repeat constructor; simpl; intuition discriminate.
  - split; [repeat constructor; simpl; intuition discriminate
           | intros x Hx; vm_compute in Hx |- *; tauto].
  - split; [repeat constructor; simpl; intuition discriminate
           | intros x Hx; vm_compute in Hx |- *; tauto].
  - split; [constructor | intros x Hx; destruct Hx].
  - split; [repeat constructor; simpl; intuition discriminate
           | intros x Hx; vm_compute in Hx |- *; tauto].
Defined.

